(** * dice: the OpenTelemetry bootstrap of [cmd/dice/otel.go]

  A shallow embedding of [setupOTelSDK] and of the two closures it builds,
  [shutdown] and [handleErr], together with the small part of Go's
  [errors] package they rely on.  The Go function threads three pieces of
  mutable state through its body: the captured slice [shutdownFuncs], the
  process-wide OpenTelemetry globals, and whatever the SDK itself keeps
  behind provider handles.  They are modelled by an explicit state passed
  through a state monad. *)

From Stdlib Require Import List Bool Arith Lia.
From Stdlib Require String.
Import ListNotations.

Set Implicit Arguments.
Set Warnings "-register-all".

(** ** Go's [errors] package *)

Module errors.

(** A non-nil Go [error] value.  [Sentinel] stands for an error created by
    a library ([errors.New], a context error, an exporter failure);
    [joinError] is the [*joinError] that [errors.Join] allocates. *)
Inductive error : Type :=
| Sentinel (msg : String.string)
| joinError (errs : list error).

(** [error] as the Go interface type: [None] is [nil]. *)
Definition t : Type := option error.

(** [n] counts the non-nil arguments, the second loop keeps them. *)
Fixpoint nonnil (errs : list t) : list error :=
  match errs with
  | [] => []
  | None :: rest => nonnil rest
  | Some e :: rest => e :: nonnil rest
  end.

(** [errors.Join]: nil values are discarded, the result is nil when every
    argument is nil, and otherwise a fresh [joinError] over the others. *)
Definition Join (errs : list t) : t :=
  match nonnil errs with
  | [] => None
  | e :: es => Some (joinError (e :: es))
  end.

(** [err == target].  Go compares two [*joinError] by address; the model
    compares what they wrap. *)
Fixpoint eqb (a b : error) {struct a} : bool :=
  match a, b with
  | Sentinel x, Sentinel y => String.eqb x y
  | joinError xs, joinError ys =>
      (fix eqbs (l : list error) (r : list error) {struct l} : bool :=
         match l, r with
         | [], [] => true
         | x :: l', y :: r' => eqb x y && eqbs l' r'
         | _, _ => false
         end) xs ys
  | _, _ => false
  end.

(** [errors.Is] on the error tree: [err] itself, then depth first through
    [Unwrap() []error]. *)
Fixpoint Is (err target : error) {struct err} : bool :=
  eqb err target ||
  match err with
  | Sentinel _ => false
  | joinError errs => existsb (fun e => Is e target) errs
  end.

(** [errors.Is] with a possibly nil first argument. *)
Definition IsT (err : t) (target : error) : bool :=
  match err with
  | None => false
  | Some e => Is e target
  end.

End errors.

(** ** [context.Context] *)

(** Only what the callees can observe of a context: which one it is and
    whether it is already done. *)
Record context : Type := mkContext {
  ctx_id : nat;
  ctx_done : bool
}.

(** ** The OpenTelemetry API as seen from [otel.go] *)

Inductive signal : Type := Traces | Metrics | Logs.

(** [propagation.TextMapPropagator] values. *)
Inductive propagator : Type :=
| TraceContext
| Baggage
| CompositeTextMapPropagator (ps : list propagator).

(** What the program does that the properties talk about, in program order.
    A function value or a provider appears by its tag or address. *)
Inductive event : Type :=
| EvSetTextMapPropagator (p : propagator)
| EvConstruct (s : signal)
| EvAppend (tag : nat)
| EvSetProvider (s : signal) (addr : nat)
| EvShutdownCall (c : context)
| EvInvoke (tag : nat) (c : context)
| EvShutdownReturn.

Section OTel.

(** State owned by the SDK (exporters, batchers, background workers).  The
    coordinator never looks inside it, and the SDK reaches neither the
    captured slice nor, in the calls made here, the OpenTelemetry globals. *)
Variable Env : Type.

(** What an exporter constructor hands back on success: a span exporter, a
    metric reader or a log exporter. *)
Variable Exporter : Type.

(** A Go call into the SDK: it may change the SDK's state and returns. *)
Definition extcall (A : Type) : Type := Env -> A * Env.

(** A [func(context.Context) error] held in [shutdownFuncs].  [fn_tag]
    names the function value in the execution log. *)
Record teardown : Type := mkTeardown {
  fn_tag : nat;
  fn_call : context -> extcall errors.t
}.

(** A [*trace.TracerProvider], [*metric.MeterProvider] or
    [*log.LoggerProvider]: its address and its [Shutdown] method. *)
Record provider : Type := mkProvider {
  prov_addr : nat;
  prov_Shutdown : context -> extcall errors.t
}.

(** The method value [p.Shutdown]. *)
Definition Shutdown (p : provider) : teardown :=
  mkTeardown (prov_addr p) (prov_Shutdown p).

(** The library functions the three [new...Provider] helpers call.  In
    [cmd/dice/otel.go] the exporters are the stdout ones, which take no
    context; in the autoexport variant they receive [ctx].  The provider
    options (resource, batch timeout, reader interval, minimum severity)
    are part of the library function here. *)
Record SDK : Type := mkSDK {
  NewSpanExporter : context -> extcall (Exporter + errors.error);
  NewMetricReader : context -> extcall (Exporter + errors.error);
  NewLogExporter : context -> extcall (Exporter + errors.error);
  NewTracerProvider : Exporter -> extcall provider;
  NewMeterProvider : Exporter -> extcall provider;
  NewLoggerProvider : Exporter -> extcall provider
}.

Variable sdk : SDK.

(** The process-wide state behind [otel.Set...] and [global.Set...];
    [None] is the library's default. *)
Record globals : Type := mkGlobals {
  TextMapPropagator : option propagator;
  TracerProvider : option provider;
  MeterProvider : option provider;
  LoggerProvider : option provider
}.

Definition get_provider (s : signal) (g : globals) : option provider :=
  match s with
  | Traces => TracerProvider g
  | Metrics => MeterProvider g
  | Logs => LoggerProvider g
  end.

Definition set_provider (s : signal) (p : provider) (g : globals) : globals :=
  match s with
  | Traces =>
      mkGlobals (TextMapPropagator g) (Some p) (MeterProvider g) (LoggerProvider g)
  | Metrics =>
      mkGlobals (TextMapPropagator g) (TracerProvider g) (Some p) (LoggerProvider g)
  | Logs =>
      mkGlobals (TextMapPropagator g) (TracerProvider g) (MeterProvider g) (Some p)
  end.

Definition set_propagator (p : propagator) (g : globals) : globals :=
  mkGlobals (Some p) (TracerProvider g) (MeterProvider g) (LoggerProvider g).

(** [shutdownFuncs] is the slice captured by the closures of one
    [setupOTelSDK] call; [trace] is the execution log. *)
Record world : Type := mkWorld {
  env : Env;
  otel : globals;
  shutdownFuncs : list teardown;
  trace : list event
}.

(** *** The state monad *)

Definition M (A : Type) : Type := world -> A * world.

Definition ret {A} (a : A) : M A := fun w => (a, w).

Definition bind {A B} (m : M A) (k : A -> M B) : M B :=
  fun w => k (fst (m w)) (snd (m w)).

Definition emit (e : event) : M unit :=
  fun w => (tt, mkWorld (env w) (otel w) (shutdownFuncs w) (trace w ++ [e])).

Definition ext {A} (c : extcall A) : M A :=
  fun w => (fst (c (env w)),
            mkWorld (snd (c (env w))) (otel w) (shutdownFuncs w) (trace w)).

Definition get_shutdownFuncs : M (list teardown) :=
  fun w => (shutdownFuncs w, w).

Definition set_shutdownFuncs (fs : list teardown) : M unit :=
  fun w => (tt, mkWorld (env w) (otel w) fs (trace w)).

Definition modify_otel (f : globals -> globals) : M unit :=
  fun w => (tt, mkWorld (env w) (f (otel w)) (shutdownFuncs w) (trace w)).

End OTel.

Arguments ret {Env A} a.
Arguments bind {Env A B} m k.
Arguments emit {Env} e.
Arguments get_shutdownFuncs {Env}.

Declare Scope otel_scope.
Delimit Scope otel_scope with otel.
Notation "x <- m ;; k" := (bind m (fun x => k))
  (at level 61, m at next level, right associativity) : otel_scope.
Notation "m ;; k" := (bind m (fun _ => k))
  (at level 61, right associativity) : otel_scope.
Local Open Scope otel_scope.

Section Coordinator.

Variable Env : Type.
Variable Exporter : Type.
Variable sdk : SDK Env Exporter.

(** *** The library calls that write the globals *)

Definition SetTextMapPropagator (p : propagator) : M Env unit :=
  modify_otel (set_propagator p) ;;
  emit (EvSetTextMapPropagator p).

(** [otel.SetTracerProvider], [otel.SetMeterProvider] and
    [global.SetLoggerProvider]. *)
Definition SetProvider (s : signal) (p : provider Env) : M Env unit :=
  modify_otel (set_provider s p) ;;
  emit (EvSetProvider s (prov_addr p)).

(** *** [newPropagator] and the three provider constructors *)

Definition newPropagator : propagator :=
  CompositeTextMapPropagator [TraceContext; Baggage].

Definition newTracerProvider (ctx : context) : extcall Env (provider Env + errors.error) :=
  fun s =>
    match NewSpanExporter sdk ctx s with
    | (inr err, s1) => (inr err, s1)
    | (inl traceExporter, s1) =>
        let (tracerProvider, s2) := NewTracerProvider sdk traceExporter s1 in
        (inl tracerProvider, s2)
    end.

Definition newMeterProvider (ctx : context) : extcall Env (provider Env + errors.error) :=
  fun s =>
    match NewMetricReader sdk ctx s with
    | (inr err, s1) => (inr err, s1)
    | (inl metricReader, s1) =>
        let (meterProvider, s2) := NewMeterProvider sdk metricReader s1 in
        (inl meterProvider, s2)
    end.

Definition newLoggerProvider (ctx : context) : extcall Env (provider Env + errors.error) :=
  fun s =>
    match NewLogExporter sdk ctx s with
    | (inr err, s1) => (inr err, s1)
    | (inl logExporter, s1) =>
        let (loggerProvider, s2) := NewLoggerProvider sdk logExporter s1 in
        (inl loggerProvider, s2)
    end.

(** *** The closures of [setupOTelSDK] *)

(** [fn(ctx)] for one element of the slice. *)
Definition call (fn : teardown Env) (ctx : context) : M Env errors.t :=
  emit (EvInvoke (fn_tag fn) ctx) ;;
  ext (fn_call fn ctx).

(** [for _, fn := range shutdownFuncs { err = errors.Join(err, fn(ctx)) }]:
    the range expression is evaluated once, [err] is the loop's
    accumulator. *)
Fixpoint range_shutdownFuncs (ctx : context) (fns : list (teardown Env))
    (err : errors.t) : M Env errors.t :=
  match fns with
  | [] => ret err
  | fn :: rest =>
      r <- call fn ctx ;;
      range_shutdownFuncs ctx rest (errors.Join [err; r])
  end.

(** The closure [shutdown]. *)
Definition shutdown (ctx : context) : M Env errors.t :=
  emit (EvShutdownCall ctx) ;;
  fns <- get_shutdownFuncs ;;
  err <- range_shutdownFuncs ctx fns None ;;
  set_shutdownFuncs [] ;;
  emit EvShutdownReturn ;;
  ret err.

(** The closure [handleErr]; its result is the value it stores in the named
    result [err] of [setupOTelSDK]. *)
Definition handleErr (ctx : context) (inErr : errors.t) : M Env errors.t :=
  r <- shutdown ctx ;;
  ret (errors.Join [inErr; r]).

(** [shutdownFuncs = append(shutdownFuncs, fn)]. *)
Definition append (fn : teardown Env) : M Env unit :=
  fns <- get_shutdownFuncs ;;
  set_shutdownFuncs (fns ++ [fn]) ;;
  emit (EvAppend (fn_tag fn)).

(** One of the three provider steps of [setupOTelSDK]. *)
Definition construct (s : signal) (new : extcall Env (provider Env + errors.error))
  : M Env (provider Env + errors.error) :=
  emit (EvConstruct s) ;;
  ext new.

(** [setupOTelSDK]: the results are the named results [shutdown] and
    [err].  [shutdown] is assigned before anything can fail, so every
    return carries the closure. *)
Definition setupOTelSDK (ctx : context)
  : M Env (option (context -> M Env errors.t) * errors.t) :=
  set_shutdownFuncs [] ;;
  let prop := newPropagator in
  SetTextMapPropagator prop ;;
  r1 <- construct Traces (newTracerProvider ctx) ;;
  match r1 with
  | inr e =>
      err <- handleErr ctx (Some e) ;;
      ret (Some shutdown, err)
  | inl tracerProvider =>
      append (Shutdown tracerProvider) ;;
      SetProvider Traces tracerProvider ;;
      r2 <- construct Metrics (newMeterProvider ctx) ;;
      match r2 with
      | inr e =>
          err <- handleErr ctx (Some e) ;;
          ret (Some shutdown, err)
      | inl meterProvider =>
          append (Shutdown meterProvider) ;;
          SetProvider Metrics meterProvider ;;
          r3 <- construct Logs (newLoggerProvider ctx) ;;
          match r3 with
          | inr e =>
              err <- handleErr ctx (Some e) ;;
              ret (Some shutdown, err)
          | inl loggerProvider =>
              append (Shutdown loggerProvider) ;;
              SetProvider Logs loggerProvider ;;
              ret (Some shutdown, None)
          end
      end
  end.

(** *** A coordinator instance over its whole life *)

(** The caller's later calls of the returned closure, one per context. *)
Fixpoint call_each (sh : context -> M Env errors.t) (cs : list context)
  : M Env (list errors.t) :=
  match cs with
  | [] => ret []
  | c :: rest =>
      r <- sh c ;;
      rs <- call_each sh rest ;;
      ret (r :: rs)
  end.

(** [setupOTelSDK ctx] followed by the caller invoking whatever closure it
    got back with the contexts [cs], in that order.  [run] in [main.go]
    is the case of no call after a failure and of one deferred call with
    [context.Background()] after a success. *)
Definition lifecycle (ctx : context) (cs : list context)
  : M Env (errors.t * list errors.t) :=
  r <- setupOTelSDK ctx ;;
  match fst r with
  | None => ret (snd r, [])
  | Some sh =>
      rs <- call_each sh cs ;;
      ret (snd r, rs)
  end.

(** Registering a sequence of teardown operations on a fresh registry. *)
Fixpoint register_all (fns : list (teardown Env)) : M Env unit :=
  match fns with
  | [] => ret tt
  | fn :: rest => append fn ;; register_all rest
  end.

(** *** Reading the execution log *)

(** The events a computation adds to the log when run from [w]. *)
Definition emitted {A} (m : M Env A) (w : world Env) : list event :=
  skipn (length (trace w)) (trace (snd (m w))).

Fixpoint invocations (evs : list event) : list (nat * context) :=
  match evs with
  | [] => []
  | EvInvoke tag c :: rest => (tag, c) :: invocations rest
  | _ :: rest => invocations rest
  end.

Fixpoint appended (evs : list event) : list nat :=
  match evs with
  | [] => []
  | EvAppend tag :: rest => tag :: appended rest
  | _ :: rest => appended rest
  end.

Fixpoint published (evs : list event) : list (signal * nat) :=
  match evs with
  | [] => []
  | EvSetProvider s a :: rest => (s, a) :: published rest
  | _ :: rest => published rest
  end.

(** The construction, registration and publication events, in order. *)
Fixpoint bootstrap_steps (evs : list event) : list event :=
  match evs with
  | [] => []
  | EvConstruct s :: rest => EvConstruct s :: bootstrap_steps rest
  | EvAppend t :: rest => EvAppend t :: bootstrap_steps rest
  | EvSetProvider s a :: rest => EvSetProvider s a :: bootstrap_steps rest
  | _ :: rest => bootstrap_steps rest
  end.

(** *** What the SDK answers *)

(** The results the teardown operations [fns] return when called one after
    the other with [ctx], starting from SDK state [s]. *)
Fixpoint outcomes (ctx : context) (fns : list (teardown Env)) (s : Env)
  : list errors.t :=
  match fns with
  | [] => []
  | fn :: rest =>
      fst (fn_call fn ctx s) :: outcomes ctx rest (snd (fn_call fn ctx s))
  end.

(** The SDK state those calls leave. *)
Fixpoint env_after (ctx : context) (fns : list (teardown Env)) (s : Env) : Env :=
  match fns with
  | [] => s
  | fn :: rest => env_after ctx rest (snd (fn_call fn ctx s))
  end.

(** Folding results into the accumulator the way the loop does. *)
Definition joined (acc : errors.t) (rs : list errors.t) : errors.t :=
  fold_left (fun a r => errors.Join [a; r]) rs acc.

(** Providers [ps] were constructed, in the order of [setupOTelSDK] and from
    SDK state [s0], and the constructor for signal [sig] then failed with
    [e], leaving SDK state [s]. *)
Inductive constructed_then_failed (ctx : context) (s0 : Env)
  : list (signal * provider Env) -> signal -> errors.error -> Env -> Prop :=
| failed_traces e s :
    newTracerProvider ctx s0 = (inr e, s) ->
    constructed_then_failed ctx s0 [] Traces e s
| failed_metrics tp s1 e s :
    newTracerProvider ctx s0 = (inl tp, s1) ->
    newMeterProvider ctx s1 = (inr e, s) ->
    constructed_then_failed ctx s0 [(Traces, tp)] Metrics e s
| failed_logs tp s1 mp s2 e s :
    newTracerProvider ctx s0 = (inl tp, s1) ->
    newMeterProvider ctx s1 = (inl mp, s2) ->
    newLoggerProvider ctx s2 = (inr e, s) ->
    constructed_then_failed ctx s0 [(Traces, tp); (Metrics, mp)] Logs e s.

(** All three constructors succeeded. *)
Definition constructed (ctx : context) (s0 : Env)
    (ps : list (signal * provider Env)) (s : Env) : Prop :=
  exists tp s1 mp s2 lp,
    newTracerProvider ctx s0 = (inl tp, s1) /\
    newMeterProvider ctx s1 = (inl mp, s2) /\
    newLoggerProvider ctx s2 = (inl lp, s) /\
    ps = [(Traces, tp); (Metrics, mp); (Logs, lp)].

(** The teardown operations of constructed providers. *)
Definition teardowns (ps : list (signal * provider Env)) : list (teardown Env) :=
  map (fun sp => Shutdown (snd sp)) ps.

(** The log of constructing, registering and publishing [ps]. *)
Definition stage_events (ps : list (signal * provider Env)) : list event :=
  flat_map (fun sp => [EvConstruct (fst sp);
                       EvAppend (prov_addr (snd sp));
                       EvSetProvider (fst sp) (prov_addr (snd sp))]) ps.

(** The globals after publishing [ps]. *)
Definition publish (ps : list (signal * provider Env)) (g : globals Env)
  : globals Env :=
  fold_left (fun g sp => set_provider (fst sp) (snd sp) g) ps g.

(** The log of one [shutdown ctx] over the registry [fns]. *)
Definition shutdown_events (ctx : context) (fns : list (teardown Env))
  : list event :=
  EvShutdownCall ctx
    :: map (fun fn => EvInvoke (fn_tag fn) ctx) fns ++ [EvShutdownReturn].

(** *** The registry's life as a monitor on the log *)

(** [Open]: no [shutdown] call yet.  [Draining]: the first [shutdown] call
    is running.  [Drained]: it has returned. *)
Inductive phase : Type := Open | Draining | Drained.

(** One event seen in a phase: the next phase, or [None] when the event
    must not happen there.  Teardown operations run only inside the first
    [shutdown] call; nothing is registered once it has begun. *)
Definition phase_step (ph : phase) (e : event) : option phase :=
  match e, ph with
  | EvAppend _, Open => Some Open
  | EvAppend _, _ => None
  | EvInvoke _ _, Draining => Some Draining
  | EvInvoke _ _, _ => None
  | EvShutdownCall _, Open => Some Draining
  | EvShutdownCall _, Draining => None
  | EvShutdownCall _, Drained => Some Drained
  | EvShutdownReturn, Open => None
  | EvShutdownReturn, Draining => Some Drained
  | EvShutdownReturn, Drained => Some Drained
  | _, _ => Some ph
  end.

Fixpoint phase_run (ph : phase) (evs : list event) : option phase :=
  match evs with
  | [] => Some ph
  | e :: rest =>
      match phase_step ph e with
      | None => None
      | Some ph' => phase_run ph' rest
      end
  end.

(** How often the log leaves [Open]. *)
Fixpoint shutdown_calls (evs : list event) : nat :=
  match evs with
  | [] => 0
  | EvShutdownCall _ :: rest => S (shutdown_calls rest)
  | _ :: rest => shutdown_calls rest
  end.

(** The log of [shutdown] calls that find the registry empty. *)
Definition idle_calls (cs : list context) : list event :=
  flat_map (fun c => [EvShutdownCall c; EvShutdownReturn]) cs.

(** The log of the caller's [shutdown] calls [cs] on the registry [fns]. *)
Definition caller_events (cs : list context) (fns : list (teardown Env))
  : list event :=
  match cs with
  | [] => []
  | c :: rest => shutdown_events c fns ++ idle_calls rest
  end.

(** Replaying a log against the registry it describes: [reg] holds the
    tags registered so far, and a provider may be published only while
    its [Shutdown] is in there. *)
Fixpoint publication_guarded (reg : list nat) (evs : list event) : bool :=
  match evs with
  | [] => true
  | EvAppend tag :: rest => publication_guarded (tag :: reg) rest
  | EvSetProvider _ a :: rest =>
      existsb (Nat.eqb a) reg && publication_guarded reg rest
  | EvShutdownReturn :: rest => publication_guarded [] rest
  | _ :: rest => publication_guarded reg rest
  end.

End Coordinator.

(** ** A small SDK to run the model on *)

Module Demo.

Import String.
Local Open Scope string_scope.

(** The SDK state: the addresses of the providers whose [Shutdown] ran,
    latest first. *)
Definition Env : Type := list nat.

Definition Exporter : Type := nat.

Definition canceled : errors.error := errors.Sentinel "context canceled".
Definition flush_failed : errors.error := errors.Sentinel "flush failed".
Definition no_exporter : errors.error := errors.Sentinel "no exporter".

(** A provider whose [Shutdown] records the call and honours the context. *)
Definition polite (addr : nat) : provider Env :=
  mkProvider addr
    (fun ctx s => (if ctx_done ctx then Some canceled else None, addr :: s)).

(** A provider whose [Shutdown] records the call and always fails. *)
Definition broken (addr : nat) : provider Env :=
  mkProvider addr (fun _ s => (Some flush_failed, addr :: s)).

Definition signal_eqb (a b : signal) : bool :=
  match a, b with
  | Traces, Traces | Metrics, Metrics | Logs, Logs => true
  | _, _ => false
  end.

Definition exporter_for (bad : option signal) (s : signal) (n : nat)
  : context -> extcall Env (Exporter + errors.error) :=
  fun _ st =>
    match bad with
    | Some b => if signal_eqb b s then (inr no_exporter, st) else (inl n, st)
    | None => (inl n, st)
    end.

(** An SDK whose exporter for [bad] cannot be created; the tracer provider
    it builds fails to shut down, the other two shut down cleanly. *)
Definition sdk (bad : option signal) : SDK Env Exporter :=
  mkSDK (exporter_for bad Traces 1)
        (exporter_for bad Metrics 2)
        (exporter_for bad Logs 3)
        (fun n st => (broken n, st))
        (fun n st => (polite n, st))
        (fun n st => (polite n, st)).

Definition background : context := mkContext 0 false.
Definition interrupted : context := mkContext 1 true.

Definition no_globals : globals Env := mkGlobals None None None None.

(** A process that has not touched OpenTelemetry yet. *)
Definition fresh : world Env := mkWorld [] no_globals [] [].

(** A coordinator holding the five teardown operations [fns5]; the second
    and the fourth fail. *)
Definition fns5 : list (teardown Env) :=
  [Shutdown (polite 1); Shutdown (broken 2); Shutdown (polite 3);
   Shutdown (broken 4); Shutdown (polite 5)].

Definition loaded : world Env := mkWorld [] no_globals fns5 [].

End Demo.

(** ** The programs around the coordinator *)

(** [context.Background()]: never done. *)
Definition Background : context := mkContext 0 false.

(** A value handed to [panic], or the run-time error of calling a nil
    function value. *)
Inductive panic_value : Type :=
| PanicError (e : errors.error)
| PanicNilFunc.

(** How a Go function call ends: it returns, or it is still panicking when
    its deferred calls are done.  The panics are kept oldest first, as the
    run time prints them. *)
Inductive outcome (A : Type) : Type :=
| Returned (a : A)
| Panicked (vs : list panic_value).

Arguments Returned {A} a.
Arguments Panicked {A} vs.

(** How the process of [cmd/dice] ends: [main] returns, [log.Fatalln]
    exits with status 1, or a panic reaches the top. *)
Inductive exit_status : Type :=
| ExitOK
| ExitFatal
| ExitPanic (vs : list panic_value).

(** One [o.ObserveInt64] of a metric callback. *)
Inductive attribute_value : Type :=
| AttrString (s : String.string)
| AttrBool (b : bool).

Record observation : Type := mkObservation {
  obs_instrument : nat;
  obs_value : nat;
  obs_attributes : list (String.string * attribute_value)
}.

Module text.

Import String.
Local Open Scope string_scope.

Definition listening : string := "HTTP server is listening on :8080".
Definition register_failed : string := "Failed to register callback".
Definition meter_name : string :=
  "go.opentelemetry.io/otel/metric#MultiAsyncExample".
Definition cpuUsage : string := "cpuUsage".
Definition label : string := "label".
Definition value : string := "value".
Definition env_prod : string := "env-prod".

End text.

(** What the two programs do, in program order; [HCoord] carries the
    events of the coordinator and of the provider calls. *)
Inductive hevent : Type :=
| HCoord (e : event)
| HLoggerInit
| HNotifyContext (c : context)
| HStop
| HListenAndServe (base : context)
| HLoggerInfo (msg : String.string)
| HSelectSrvErr
| HSelectDone
| HSrvShutdown (c : context)
| HFatalln (e : errors.error)
| HNewExporter (c : context)
| HNewMeterProvider (addr : nat)
| HMeter (from : option nat)
| HGauge
| HRegisterCallback (obs : list observation)
| HPrintln (msg : String.string).

(** The events of the coordinator inside a program's log. *)
Fixpoint coord (log : list hevent) : list event :=
  match log with
  | [] => []
  | HCoord e :: rest => e :: coord rest
  | _ :: rest => coord rest
  end.

(** The log with the coordinator's events left out. *)
Fixpoint host_steps (log : list hevent) : list hevent :=
  match log with
  | [] => []
  | HCoord _ :: rest => host_steps rest
  | e :: rest => e :: host_steps rest
  end.

Section Host.

Variable Env : Type.
Variable Exporter : Type.
Variable sdk : SDK Env Exporter.

(** What [run] needs besides the SDK.  [srvErr_or_Done] is the [select] of
    [run]: it blocks until the server goroutine has sent the result of
    [srv.ListenAndServe()] on [srvErr] ([inl]) or the signal context is
    done ([inr]); which comes first is the environment's choice. *)
Record ServerAPI : Type := mkServerAPI {
  signal_NotifyContext : extcall Env context;
  signal_stop : extcall Env unit;
  go_ListenAndServe : context -> extcall Env unit;
  srvErr_or_Done : extcall Env (errors.t + unit);
  srv_Shutdown : context -> extcall Env errors.t
}.

(** What [cmd/metrics] calls.  A meter and an instrument are handles;
    [otel_Meter] receives the global meter provider current at the call. *)
Record MetricsAPI : Type := mkMetricsAPI {
  otlpmetricgrpc_New : context -> extcall Env (Exporter + errors.error);
  metric_NewMeterProvider : Exporter -> extcall Env (provider Env);
  otel_Meter : option (provider Env) -> String.string -> extcall Env nat;
  Int64ObservableGauge : nat -> String.string -> extcall Env (nat * errors.t);
  RegisterCallback :
    nat -> (list observation * errors.t) -> nat -> extcall Env errors.t
}.

Variable srv : ServerAPI.
Variable mapi : MetricsAPI.

(** The state of a program: the coordinator's world and the program's log. *)
Record host : Type := mkHost {
  hw : world Env;
  hlog : list hevent
}.

Definition Prog (A : Type) : Type := host -> A * host.

Definition hret {A} (a : A) : Prog A := fun h => (a, h).

Definition hbind {A B} (m : Prog A) (k : A -> Prog B) : Prog B :=
  fun h => k (fst (m h)) (snd (m h)).

Definition hemit (e : hevent) : Prog unit :=
  fun h => (tt, mkHost (hw h) (hlog h ++ [e])).

(** A coordinator computation inside a program: it runs on the world, and
    what it logs goes to the program's log. *)
Definition liftC {A} (m : M Env A) : Prog A :=
  fun h => (fst (m (hw h)),
            mkHost (snd (m (hw h))) (hlog h ++ map HCoord (emitted m (hw h)))).

(** A library call from a program. *)
Definition hext {A} (c : extcall Env A) : Prog A := liftC (ext c).

(** Reading the global meter provider. *)
Definition GetMeterProvider : Prog (option (provider Env)) :=
  fun h => (MeterProvider (otel (hw h)), h).

(** The events a program adds to its log when run from [h]. *)
Definition hemitted {A} (m : Prog A) (h : host) : list hevent :=
  skipn (length (hlog h)) (hlog (snd (m h))).

End Host.

Arguments hret {Env A} a.
Arguments hemit {Env} e.
Arguments GetMeterProvider {Env}.

Declare Scope host_scope.
Delimit Scope host_scope with host.
Notation "x <- m ;; k" := (hbind m (fun x => k))
  (at level 61, m at next level, right associativity) : host_scope.
Notation "m ;; k" := (hbind m (fun _ => k))
  (at level 61, right associativity) : host_scope.

Section Programs.

Local Open Scope host_scope.

Variable Env : Type.
Variable Exporter : Type.
Variable sdk : SDK Env Exporter.
Variable srv : ServerAPI Env.
Variable mapi : MetricsAPI Env Exporter.

(** *** [cmd/dice]: [run] and [main] *)

(** [stop()], the cancel function of [signal.NotifyContext]. *)
Definition stop : Prog Env unit :=
  hemit HStop ;;
  hext (signal_stop srv).

(** The [select] of [run] and what follows it up to the [return]: the
    value left in the named result [err]. *)
Definition wait_for_end : Prog Env errors.t :=
  woke <- hext (srvErr_or_Done srv) ;;
  match woke with
  | inl e =>
      hemit HSelectSrvErr ;;
      hret e
  | inr _ =>
      hemit HSelectDone ;;
      stop ;;
      hemit (HSrvShutdown Background) ;;
      hext (srv_Shutdown srv Background)
  end.

(** The deferred closure of [run],
    [err = errors.Join(err, otelShutdown(context.Background()))], followed
    by the deferred [stop()] registered before it. *)
Definition deferred (otelShutdown : option (context -> M Env errors.t))
    (err : errors.t) : Prog Env (outcome errors.t) :=
  match otelShutdown with
  | None =>
      stop ;;
      hret (Panicked [PanicNilFunc])
  | Some sh =>
      r <- liftC (sh Background) ;;
      stop ;;
      hret (Returned (errors.Join [err; r]))
  end.

(** [run]. *)
Definition run : Prog Env (outcome errors.t) :=
  ctx <- hext (signal_NotifyContext srv) ;;
  hemit (HNotifyContext ctx) ;;
  r <- liftC (setupOTelSDK sdk ctx) ;;
  let otelShutdown := fst r in
  match snd r with
  | Some e =>
      stop ;;
      hret (Returned (Some e))
  | None =>
      hemit (HListenAndServe ctx) ;;
      hext (go_ListenAndServe srv ctx) ;;
      hemit (HLoggerInfo text.listening) ;;
      err <- wait_for_end ;;
      deferred otelShutdown err
  end.

(** *** What the environment answers to [run] *)

(** The log of [wait_for_end] for either answer of the [select]. *)
Definition wake_events (woke : errors.t + unit) : list hevent :=
  match woke with
  | inl _ => [HSelectSrvErr]
  | inr _ => [HSelectDone; HStop; HSrvShutdown Background]
  end.

(** The value [wait_for_end] leaves in [err] when the [select] answers
    [woke] in state [s]: what came out of [srvErr], or the result of
    [srv.Shutdown]. *)
Definition first_error (woke : errors.t + unit) (s : Env) : errors.t :=
  match woke with
  | inl e => e
  | inr _ => fst (srv_Shutdown srv Background (snd (signal_stop srv s)))
  end.

(** The state [wait_for_end] leaves. *)
Definition state_at_return (woke : errors.t + unit) (s : Env) : Env :=
  match woke with
  | inl _ => s
  | inr _ => snd (srv_Shutdown srv Background (snd (signal_stop srv s)))
  end.

(** [main] of [cmd/dice]. *)
Definition main_dice : Prog Env exit_status :=
  hemit HLoggerInit ;;
  r <- run ;;
  match r with
  | Returned None => hret ExitOK
  | Returned (Some e) =>
      hemit (HFatalln e) ;;
      hret ExitFatal
  | Panicked vs => hret (ExitPanic vs)
  end.

(** *** [cmd/metrics]: [main] *)

(** The callback registered for the gauge: one observation, no error. *)
Definition cpu_callback (cpuUsage : nat) : list observation * errors.t :=
  ([mkObservation cpuUsage 60
      [(text.label, AttrString text.value); (text.env_prod, AttrBool true)]],
   None).

(** [main] from [otel.SetMeterProvider] to its end, the deferred closure
    not included. *)
Definition metrics_body (meterProvider : provider Env) : Prog Env (outcome unit) :=
  liftC (SetProvider Metrics meterProvider) ;;
  g <- GetMeterProvider ;;
  hemit (HMeter (option_map (@prov_addr Env) g)) ;;
  meter <- hext (otel_Meter mapi g text.meter_name) ;;
  hemit HGauge ;;
  gauge <- hext (Int64ObservableGauge mapi meter text.cpuUsage) ;;
  let cpuUsage := fst gauge in
  hemit (HRegisterCallback (fst (cpu_callback cpuUsage))) ;;
  err <- hext (RegisterCallback mapi meter (cpu_callback cpuUsage) cpuUsage) ;;
  match err with
  | Some e =>
      hemit (HPrintln text.register_failed) ;;
      hret (Panicked [PanicError e])
  | None => hret (Returned tt)
  end.

(** The deferred closure of [main]: it shuts the provider down and panics
    on an error, on top of a panic already under way. *)
Definition metrics_deferred (meterProvider : provider Env) (ctx : context)
    (body : outcome unit) : Prog Env (outcome unit) :=
  err <- liftC (call (Shutdown meterProvider) ctx) ;;
  match err with
  | None => hret body
  | Some e =>
      match body with
      | Returned _ => hret (Panicked [PanicError e])
      | Panicked vs => hret (Panicked (vs ++ [PanicError e]))
      end
  end.

(** [main] of [cmd/metrics]. *)
Definition main_metrics : Prog Env (outcome unit) :=
  let ctx := Background in
  hemit (HNewExporter ctx) ;;
  r <- hext (otlpmetricgrpc_New mapi ctx) ;;
  match r with
  | inr err => hret (Panicked [PanicError err])
  | inl exp =>
      meterProvider <- hext (metric_NewMeterProvider mapi exp) ;;
      hemit (HNewMeterProvider (prov_addr meterProvider)) ;;
      body <- metrics_body meterProvider ;;
      metrics_deferred meterProvider ctx body
  end.

(** The API with the error result of [Int64ObservableGauge] replaced. *)
Definition with_gauge_error (f : errors.t -> errors.t) (api : MetricsAPI Env Exporter)
  : MetricsAPI Env Exporter :=
  mkMetricsAPI
    (otlpmetricgrpc_New api)
    (metric_NewMeterProvider api)
    (otel_Meter api)
    (fun meter name s =>
       let r := Int64ObservableGauge api meter name s in
       ((fst (fst r), f (snd (fst r))), snd r))
    (RegisterCallback api).

End Programs.

(** *** Reading error trees *)

(** The library errors inside an error, in the order [errors.Is] meets
    them. *)
Fixpoint leaves (e : errors.error) : list String.string :=
  match e with
  | errors.Sentinel msg => [msg]
  | errors.joinError errs => flat_map leaves errs
  end.

Definition leavesT (e : errors.t) : list String.string :=
  match e with
  | None => []
  | Some x => leaves x
  end.

(** ** A small environment to run the programs in *)

Module DemoHost.

Import String.
Local Open Scope string_scope.

(** The context [signal.NotifyContext] hands out. *)
Definition sigctx : context := mkContext 7 false.

Definition closed : errors.error :=
  errors.Sentinel "http: Server closed".
Definition refused : errors.error := errors.Sentinel "address in use".

(** A server whose [select] answers [woke] and whose [Shutdown] returns
    [down]; none of its calls touches the SDK. *)
Definition server (woke : errors.t + unit) (down : errors.t)
  : ServerAPI Demo.Env :=
  mkServerAPI (fun s => (sigctx, s))
              (fun s => (tt, s))
              (fun _ s => (tt, s))
              (fun s => (woke, s))
              (fun _ s => (down, s)).

(** The metrics library: the exporter is [exp], the provider [p], the
    gauge is instrument 5 of meter 4 and comes with [gerr], and
    registering the callback returns [rerr]. *)
Definition metrics (exp : Demo.Exporter + errors.error) (p : provider Demo.Env)
    (gerr rerr : errors.t) : MetricsAPI Demo.Env Demo.Exporter :=
  mkMetricsAPI (fun _ s => (exp, s))
               (fun _ s => (p, s))
               (fun _ _ s => (4, s))
               (fun _ _ s => ((5, gerr), s))
               (fun _ _ _ s => (rerr, s)).

Definition start : host Demo.Env := mkHost Demo.fresh [].

End DemoHost.

(** ** Properties of [errors.Join] and [errors.Is] *)

Module errors_facts.

Import errors.

Lemma eqb_refl (e : error) : eqb e e = true.
Proof.
  revert e.
  fix IH 1.
  intros [msg | errs]; simpl.
  - apply String.eqb_refl.
  - induction errs as [| x xs IHxs]; [reflexivity |].
    rewrite (IH x), IHxs. reflexivity.
Qed.

Lemma eqb_eq (a b : error) : eqb a b = true -> a = b.
Proof.
  revert a b.
  fix IH 1.
  intros [x | xs] [y | ys]; simpl; try discriminate.
  - intros H. apply String.eqb_eq in H. now subst.
  - revert ys.
    induction xs as [| x xs IHxs]; intros [| y ys]; try discriminate.
    + reflexivity.
    + intros H. apply andb_prop in H. destruct H as [Hx Hxs].
      apply IH in Hx. apply IHxs in Hxs.
      injection Hxs as ->. now subst.
Qed.

Lemma Is_refl (e : error) : Is e e = true.
Proof. destruct e; cbn [Is]; rewrite eqb_refl; reflexivity. Qed.

(** A [joinError] contains what its members contain. *)
Lemma Is_joinError (errs : list error) (target : error) :
  Is (joinError errs) target = true <->
  joinError errs = target \/ exists e, In e errs /\ Is e target = true.
Proof.
  change (Is (joinError errs) target)
    with (eqb (joinError errs) target || existsb (fun e => Is e target) errs).
  rewrite orb_true_iff, existsb_exists. split.
  - intros [H | H]; [left; now apply eqb_eq | now right].
  - intros [H | H]; [left; subst; apply eqb_refl | now right].
Qed.

(** The four shapes of the loop's [errors.Join(err, fn(ctx))]. *)
Lemma Join_pair (a r : t) :
  Join [a; r] =
  match a, r with
  | None, None => None
  | Some x, None => Some (joinError [x])
  | None, Some y => Some (joinError [y])
  | Some x, Some y => Some (joinError [x; y])
  end.
Proof. destruct a, r; reflexivity. Qed.

Lemma Join_pair_nil (a r : t) : Join [a; r] = None <-> a = None /\ r = None.
Proof. destruct a, r; cbv; split; intros; try tauto; try discriminate;
       destruct H; discriminate. Qed.

Lemma IsT_Join_pair (a r : t) (target : error) :
  IsT (Join [a; r]) target = true <->
  Join [a; r] = Some target \/ IsT a target = true \/ IsT r target = true.
Proof.
  rewrite Join_pair.
  destruct a as [x |], r as [y |]; unfold IsT;
    try rewrite Is_joinError; simpl In.
  - split.
    + intros [H | (e & [He | [He | []]] & Hi)]; subst; auto.
      all: try (left; now f_equal).
    + intros [H | [H | H]].
      * left. now injection H.
      * right. exists x. auto.
      * right. exists y. auto.
  - split.
    + intros [H | (e & [He | []] & Hi)]; subst; auto.
      all: try (left; now f_equal).
    + intros [H | [H | H]]; try discriminate.
      * left. now injection H.
      * right. exists x. auto.
  - split.
    + intros [H | (e & [He | []] & Hi)]; subst; auto.
      all: try (left; now f_equal).
    + intros [H | [H | H]]; try discriminate.
      * left. now injection H.
      * right. exists y. auto.
  - split; [discriminate |].
    intros [H | [H | H]]; discriminate.
Qed.

End errors_facts.

(** ** Properties of the coordinator *)

Section Properties.

Variable Env : Type.
Variable Exporter : Type.
Variable sdk : SDK Env Exporter.

Implicit Types (w : world Env) (ctx c : context) (fns : list (teardown Env)).

(** *** The log only grows *)

Lemma skipn_length_app {A} (l r : list A) : skipn (length l) (l ++ r) = r.
Proof. induction l; simpl; auto. Qed.

Lemma emitted_grow {A} (m : M Env A) w evs :
  trace (snd (m w)) = trace w ++ evs -> emitted m w = evs.
Proof. unfold emitted. intros ->. apply skipn_length_app. Qed.

(** *** The loop and the closure, as equations *)

Lemma range_shutdownFuncs_spec ctx fns : forall acc w,
  range_shutdownFuncs ctx fns acc w =
  (joined acc (outcomes ctx fns (env w)),
   mkWorld (env_after ctx fns (env w)) (otel w) (shutdownFuncs w)
           (trace w ++ map (fun fn => EvInvoke (fn_tag fn) ctx) fns)).
Proof.
  induction fns as [| fn rest IH]; intros acc w.
  - destruct w; simpl. now rewrite app_nil_r.
  - cbn [range_shutdownFuncs]. unfold bind at 1.
    rewrite IH. unfold call, bind, emit, ext. simpl.
    now rewrite <- app_assoc.
Qed.

Lemma shutdown_spec ctx w :
  shutdown ctx w =
  (joined None (outcomes ctx (shutdownFuncs w) (env w)),
   mkWorld (env_after ctx (shutdownFuncs w) (env w)) (otel w) []
           (trace w ++ shutdown_events ctx (shutdownFuncs w))).
Proof.
  unfold shutdown, bind, get_shutdownFuncs, set_shutdownFuncs, emit, ret.
  simpl. rewrite range_shutdownFuncs_spec. simpl.
  unfold shutdown_events. now rewrite <- !app_assoc.
Qed.

Lemma shutdown_drained ctx w :
  shutdownFuncs w = [] ->
  shutdown ctx w =
  (None, mkWorld (env w) (otel w) []
                 (trace w ++ [EvShutdownCall ctx; EvShutdownReturn])).
Proof. intros H. rewrite shutdown_spec, H. reflexivity. Qed.

Lemma register_all_spec fns : forall w,
  register_all fns w =
  (tt, mkWorld (env w) (otel w) (shutdownFuncs w ++ fns)
               (trace w ++ map (fun fn => EvAppend (fn_tag fn)) fns)).
Proof.
  induction fns as [| fn rest IH]; intros w.
  - destruct w; simpl. now rewrite !app_nil_r.
  - cbn [register_all]. unfold bind at 1. rewrite IH.
    unfold append, bind, get_shutdownFuncs, set_shutdownFuncs, emit. simpl.
    now rewrite <- !app_assoc.
Qed.

(** *** Reading a log that is known piecewise *)

Lemma invocations_app (l r : list event) :
  invocations (l ++ r) = invocations l ++ invocations r.
Proof.
  induction l as [| e l IH]; [reflexivity |].
  destruct e; simpl; rewrite IH; reflexivity.
Qed.

Lemma invocations_invokes ctx fns :
  invocations (map (fun fn => EvInvoke (fn_tag fn) ctx) fns) =
  map (fun fn => (fn_tag fn, ctx)) fns.
Proof. induction fns; simpl; congruence. Qed.

Lemma invocations_shutdown_events ctx fns :
  invocations (shutdown_events ctx fns) = map (fun fn => (fn_tag fn, ctx)) fns.
Proof.
  unfold shutdown_events. simpl.
  rewrite invocations_app, invocations_invokes. simpl. apply app_nil_r.
Qed.

Lemma invocations_appends fns :
  invocations (map (fun fn => EvAppend (fn_tag fn)) fns) = [].
Proof. induction fns; simpl; auto. Qed.

(** *** [setupOTelSDK], exit path by exit path *)

Ltac run_setup :=
  unfold setupOTelSDK, handleErr, SetTextMapPropagator, SetProvider, append,
    construct, bind, ret, emit, ext, modify_otel, get_shutdownFuncs,
    set_shutdownFuncs;
  cbn [fst snd env otel shutdownFuncs trace].

Ltac tidy_log := cbn [app]; repeat rewrite <- app_assoc; cbn [app].

Lemma setupOTelSDK_failed ctx w ps sig e s :
  constructed_then_failed sdk ctx (env w) ps sig e s ->
  setupOTelSDK sdk ctx w =
  (Some (@shutdown Env),
   errors.Join [Some e; joined None (outcomes ctx (teardowns ps) s)],
   mkWorld (env_after ctx (teardowns ps) s)
           (publish ps (set_propagator newPropagator (otel w)))
           []
           (trace w ++ EvSetTextMapPropagator newPropagator
                    :: stage_events ps
                    ++ EvConstruct sig :: shutdown_events ctx (teardowns ps))).
Proof.
  intros H.
  destruct H as [e s H1 | tp s1 e s H1 H2 | tp s1 mp s2 e s H1 H2 H3];
    run_setup.
  - rewrite H1. cbn [fst snd env otel shutdownFuncs trace]. rewrite shutdown_spec.
    cbn. tidy_log. reflexivity.
  - rewrite H1. cbn [fst snd env otel shutdownFuncs trace]. rewrite H2. cbn [fst snd env otel shutdownFuncs trace].
    rewrite shutdown_spec. cbn. tidy_log. reflexivity.
  - rewrite H1. cbn [fst snd env otel shutdownFuncs trace]. rewrite H2. cbn [fst snd env otel shutdownFuncs trace].
    rewrite H3. cbn [fst snd env otel shutdownFuncs trace].
    rewrite shutdown_spec. cbn. tidy_log. reflexivity.
Qed.

Lemma setupOTelSDK_succeeded ctx w ps s :
  constructed sdk ctx (env w) ps s ->
  setupOTelSDK sdk ctx w =
  (Some (@shutdown Env), None,
   mkWorld s
           (publish ps (set_propagator newPropagator (otel w)))
           (teardowns ps)
           (trace w ++ EvSetTextMapPropagator newPropagator :: stage_events ps)).
Proof.
  intros (tp & s1 & mp & s2 & lp & H1 & H2 & H3 & ->).
  run_setup.
  rewrite H1. cbn [fst snd env otel shutdownFuncs trace]. rewrite H2. cbn [fst snd env otel shutdownFuncs trace].
  rewrite H3. cbn. tidy_log. reflexivity.
Qed.

(** Every run of the three constructors is one of the four exit paths. *)
Lemma construction_cases ctx s0 :
  (exists ps sig e s, constructed_then_failed sdk ctx s0 ps sig e s) \/
  (exists ps s, constructed sdk ctx s0 ps s).
Proof.
  destruct (newTracerProvider sdk ctx s0) as [[tp | e] s1] eqn:H1.
  2: { left. exists [], Traces, e, s1. now constructor. }
  destruct (newMeterProvider sdk ctx s1) as [[mp | e] s2] eqn:H2.
  2: { left. exists [(Traces, tp)], Metrics, e, s2. econstructor; eauto. }
  destruct (newLoggerProvider sdk ctx s2) as [[lp | e] s3] eqn:H3.
  2: { left. exists [(Traces, tp); (Metrics, mp)], Logs, e, s3.
       econstructor; eauto. }
  right. exists [(Traces, tp); (Metrics, mp); (Logs, lp)], s3.
  exists tp, s1, mp, s2, lp. auto.
Qed.

(** *** What the aggregate of the loop contains *)

Lemma joined_cons acc r rs :
  joined acc (r :: rs) = joined (errors.Join [acc; r]) rs.
Proof. reflexivity. Qed.

Lemma IsT_Some_inv (r : errors.t) t :
  errors.IsT r t = true -> exists x, r = Some x /\ errors.Is x t = true.
Proof. destruct r as [x |]; [eauto | discriminate]. Qed.

Lemma IsT_joined rs : forall acc t,
  errors.IsT (joined acc rs) t = true <->
  errors.IsT acc t = true \/
  (exists x, In (Some x) rs /\ errors.Is x t = true) \/
  (exists k, joined acc (firstn k rs) = Some t).
Proof.
  induction rs as [| r rs IH]; intros acc t.
  - cbn [joined fold_left]. split; [auto |].
    intros [H | [(x & [] & _) | (k & H)]]; [assumption |].
    rewrite firstn_nil in H. cbn in H. subst acc.
    apply errors_facts.Is_refl.
  - rewrite joined_cons, IH, errors_facts.IsT_Join_pair. split.
    + intros [[H | [H | H]] | [(x & Hin & Hx) | (k & H)]].
      * right; right. exists 1. exact H.
      * now left.
      * apply IsT_Some_inv in H. destruct H as (x & -> & Hx).
        right; left. exists x. split; [now left | assumption].
      * right; left. exists x. split; [now right | assumption].
      * right; right. exists (S k). exact H.
    + intros [H | [(x & [Hin | Hin] & Hx) | ([| k] & H)]].
      * left; right; now left.
      * subst r. left; right; now right.
      * right; left. eauto.
      * cbn in H. subst acc. left; right; left. apply errors_facts.Is_refl.
      * right; right. exists k. exact H.
Qed.

(** The aggregate is nil or a [joinError], never a library error itself. *)
Lemma joined_shape rs : forall acc,
  (acc = None \/ exists l, acc = Some (errors.joinError l)) ->
  joined acc rs = None \/ exists l, joined acc rs = Some (errors.joinError l).
Proof.
  induction rs as [| r rs IH]; intros acc Hacc; [exact Hacc |].
  rewrite joined_cons. apply IH. rewrite errors_facts.Join_pair.
  destruct acc, r; eauto.
Qed.

Lemma joined_nil rs : forall acc,
  joined acc rs = None <-> acc = None /\ forall o, In o rs -> o = None.
Proof.
  induction rs as [| r rs IH]; intros acc.
  - cbn. split; [intros ->; split; tauto | tauto].
  - rewrite joined_cons, IH, errors_facts.Join_pair_nil. split.
    + intros [[-> ->] H]. split; [reflexivity |].
      intros o [<- | Ho]; auto.
    + intros [-> H]. repeat split.
      * apply H. now left.
      * intros o Ho. apply H. now right.
Qed.

Lemma outcomes_length ctx fns : forall s,
  length (outcomes ctx fns s) = length fns.
Proof. induction fns; simpl; auto. Qed.

(** *** The closure [shutdown] *)

(** C2: whatever the registered operations return and whatever context is
    passed, done or not, [shutdown] calls every one of them with that
    context: the k-th registered operation is the k-th call of the log, the
    log has as many calls as the registry has entries, and the SDK is left
    in the state all of those calls produce. *)
Theorem shutdown_no_short_circuit ctx w k fn :
  nth_error (shutdownFuncs w) k = Some fn ->
  nth_error (invocations (emitted (shutdown ctx) w)) k = Some (fn_tag fn, ctx) /\
  length (invocations (emitted (shutdown ctx) w)) = length (shutdownFuncs w) /\
  length (outcomes ctx (shutdownFuncs w) (env w)) = length (shutdownFuncs w) /\
  env (snd (shutdown ctx w)) = env_after ctx (shutdownFuncs w) (env w).
Proof.
  intros Hk.
  rewrite (emitted_grow (shutdown ctx) w (shutdown_events ctx (shutdownFuncs w)))
    by (rewrite shutdown_spec; reflexivity).
  rewrite invocations_shutdown_events, shutdown_spec.
  repeat split.
  - rewrite nth_error_map, Hk. reflexivity.
  - apply length_map.
  - apply outcomes_length.
Qed.

(** C3: the value [shutdown] returns contains every error a registered
    operation returned; anything it contains is contained in one of those
    errors or is one of the joins the loop itself built; in particular a
    library error it contains comes from a failing operation; and it is
    nil exactly when no operation failed. *)
Theorem shutdown_aggregates_failures ctx w :
  let outs := outcomes ctx (shutdownFuncs w) (env w) in
  let r := fst (shutdown ctx w) in
  (forall x, In (Some x) outs -> errors.IsT r x = true) /\
  (forall t, errors.IsT r t = true ->
     (exists x, In (Some x) outs /\ errors.Is x t = true) \/
     (exists k, joined None (firstn k outs) = Some t)) /\
  (forall msg, errors.IsT r (errors.Sentinel msg) = true ->
     exists x, In (Some x) outs /\ errors.Is x (errors.Sentinel msg) = true) /\
  (r = None <-> forall o, In o outs -> o = None).
Proof.
  intros outs r. subst r. rewrite shutdown_spec. cbn [fst]. fold outs.
  repeat split.
  - intros x Hx. apply IsT_joined. right; left.
    exists x. split; [assumption | apply errors_facts.Is_refl].
  - intros t Ht. apply IsT_joined in Ht.
    destruct Ht as [Ht | Ht]; [discriminate | exact Ht].
  - intros msg Ht. apply IsT_joined in Ht.
    destruct Ht as [Ht | [Ht | (k & Hk)]]; [discriminate | exact Ht |].
    destruct (@joined_shape (firstn k outs) None) as [H | (l & H)];
      [now left | |]; rewrite H in Hk; discriminate.
  - intros H. now apply joined_nil in H.
  - intros H. apply joined_nil. now split.
Qed.

(** C4: two [shutdown] calls in a row: the first calls each registered
    operation once, in one pass over the registry, and returns their
    aggregate; the second calls nothing, leaves the SDK alone and returns
    nil. *)
Theorem shutdown_twice c1 c2 w :
  let twice := (r1 <- shutdown c1 ;; r2 <- shutdown c2 ;; ret (r1, r2)) in
  let w1 := snd (shutdown c1 w) in
  fst (twice w) = (joined None (outcomes c1 (shutdownFuncs w) (env w)), None) /\
  invocations (emitted (shutdown c1) w) =
    map (fun fn => (fn_tag fn, c1)) (shutdownFuncs w) /\
  invocations (emitted (shutdown c2) w1) = [] /\
  fst (shutdown c2 w1) = None /\
  env (snd (shutdown c2 w1)) = env w1 /\
  invocations (emitted twice w) =
    map (fun fn => (fn_tag fn, c1)) (shutdownFuncs w).
Proof.
  intros twice w1. subst twice w1.
  rewrite (emitted_grow (shutdown c1) w (shutdown_events c1 (shutdownFuncs w)))
    by (rewrite shutdown_spec; reflexivity).
  rewrite (emitted_grow (shutdown c2) (snd (shutdown c1 w))
             ([EvShutdownCall c2; EvShutdownReturn]))
    by (rewrite (shutdown_spec c1), shutdown_drained; reflexivity).
  rewrite (emitted_grow _ w
             (shutdown_events c1 (shutdownFuncs w)
                     ++ [EvShutdownCall c2; EvShutdownReturn])).
  2: { unfold bind, ret. cbn [fst snd].
       rewrite (shutdown_spec c1), shutdown_drained by reflexivity.
       cbn [snd trace]. now rewrite <- app_assoc. }
  unfold bind, ret. cbn [fst snd].
  rewrite (shutdown_spec c1), shutdown_drained by reflexivity.
  rewrite invocations_app, invocations_shutdown_events.
  cbn. rewrite app_nil_r. auto 10.
Qed.

(** Each result is that of the operation called in the SDK state the
    operations before it left. *)
Lemma outcomes_nth ctx fns : forall k fn s,
  nth_error fns k = Some fn ->
  nth_error (outcomes ctx fns s) k =
  Some (fst (fn_call fn ctx (env_after ctx (firstn k fns) s))).
Proof.
  induction fns as [| f rest IH]; intros [| k] fn s Hk; try discriminate.
  - injection Hk as <-. reflexivity.
  - cbn in Hk. cbn. now apply IH.
Qed.

Lemma firstn_S_nth {A} (l : list A) : forall k x,
  nth_error l k = Some x -> firstn (S k) l = firstn k l ++ [x].
Proof.
  induction l as [| a l IH]; intros [| k] x Hk; try discriminate.
  - injection Hk as <-. reflexivity.
  - cbn in Hk. cbn [firstn app]. f_equal. now apply IH.
Qed.

Lemma env_after_app ctx fns1 : forall fns2 s,
  env_after ctx (fns1 ++ fns2) s = env_after ctx fns2 (env_after ctx fns1 s).
Proof. induction fns1 as [| f rest IH]; intros fns2 s; cbn; auto. Qed.

(** C5: operations registered one after the other on a fresh registry are
    called by [shutdown] in that same order, first registered first; more
    generally the calls follow the registry front to back.  This holds of
    the calls themselves and not only of the log: the registry after the
    registrations is the sequence registered, the k-th operation runs in
    the SDK state the first k left, the SDK ends in the state the whole
    sequence produces front to back, and the value returned folds the
    results in that order. *)
Theorem shutdown_runs_in_registration_order fns ctx w :
  invocations
    (emitted (set_shutdownFuncs [] ;; register_all fns ;; shutdown ctx) w) =
    map (fun fn => (fn_tag fn, ctx)) fns /\
  invocations (emitted (shutdown ctx) w) =
    map (fun fn => (fn_tag fn, ctx)) (shutdownFuncs w) /\
  shutdownFuncs (snd ((set_shutdownFuncs [] ;; register_all fns) w)) = fns /\
  fst ((set_shutdownFuncs [] ;; register_all fns ;; shutdown ctx) w) =
    joined None (outcomes ctx fns (env w)) /\
  env (snd ((set_shutdownFuncs [] ;; register_all fns ;; shutdown ctx) w)) =
    env_after ctx fns (env w) /\
  fst (shutdown ctx w) = joined None (outcomes ctx (shutdownFuncs w) (env w)) /\
  env (snd (shutdown ctx w)) = env_after ctx (shutdownFuncs w) (env w) /\
  (forall k fn,
     nth_error (shutdownFuncs w) k = Some fn ->
     nth_error (outcomes ctx (shutdownFuncs w) (env w)) k =
       Some (fst (fn_call fn ctx
                    (env_after ctx (firstn k (shutdownFuncs w)) (env w)))) /\
     env_after ctx (firstn (S k) (shutdownFuncs w)) (env w) =
       snd (fn_call fn ctx
              (env_after ctx (firstn k (shutdownFuncs w)) (env w)))).
Proof.
  split; [| split; [| split; [| split; [| split; [| split; [| split]]]]]].
  - rewrite (emitted_grow _ w
               (map (fun fn => EvAppend (fn_tag fn)) fns
                       ++ shutdown_events ctx fns)).
    + rewrite invocations_app, invocations_appends, invocations_shutdown_events.
      reflexivity.
    + unfold bind, set_shutdownFuncs. cbn [fst snd].
      rewrite register_all_spec, shutdown_spec. cbn. now rewrite <- app_assoc.
  - rewrite (emitted_grow (shutdown ctx) w (shutdown_events ctx (shutdownFuncs w)))
      by (rewrite shutdown_spec; reflexivity).
    apply invocations_shutdown_events.
  - unfold bind, set_shutdownFuncs. cbn [fst snd].
    rewrite register_all_spec. reflexivity.
  - unfold bind, set_shutdownFuncs. cbn [fst snd].
    rewrite register_all_spec, shutdown_spec. reflexivity.
  - unfold bind, set_shutdownFuncs. cbn [fst snd].
    rewrite register_all_spec, shutdown_spec. reflexivity.
  - rewrite shutdown_spec. reflexivity.
  - rewrite shutdown_spec. reflexivity.
  - intros k fn Hk. split; [now apply outcomes_nth |].
    rewrite (firstn_S_nth (shutdownFuncs w) k Hk).
    rewrite env_after_app. reflexivity.
Qed.

(** *** [setupOTelSDK] when a constructor fails *)

Lemma emitted_failed ctx w ps sig e s :
  constructed_then_failed sdk ctx (env w) ps sig e s ->
  emitted (setupOTelSDK sdk ctx) w =
  EvSetTextMapPropagator newPropagator
    :: stage_events ps ++ EvConstruct sig :: shutdown_events ctx (teardowns ps).
Proof.
  intros H. apply emitted_grow.
  now rewrite (setupOTelSDK_failed w H).
Qed.

Lemma emitted_succeeded ctx w ps s :
  constructed sdk ctx (env w) ps s ->
  emitted (setupOTelSDK sdk ctx) w =
  EvSetTextMapPropagator newPropagator :: stage_events ps.
Proof.
  intros H. apply emitted_grow.
  now rewrite (setupOTelSDK_succeeded w H).
Qed.

(** C1: when the constructor for one signal fails with [e] after the
    providers [ps] were registered, [setupOTelSDK] has registered exactly
    the teardowns of [ps], has called every one of them with its own
    context, leaving the SDK in the state those calls produce, and returns
    [e] joined with the aggregate of what they returned: the result
    contains [e] and every error of a teardown. *)
Theorem setupOTelSDK_rolls_back ctx w ps sig e s :
  constructed_then_failed sdk ctx (env w) ps sig e s ->
  let r := setupOTelSDK sdk ctx w in
  let outs := outcomes ctx (teardowns ps) s in
  appended (emitted (setupOTelSDK sdk ctx) w) =
    map (fun sp => prov_addr (snd sp)) ps /\
  invocations (emitted (setupOTelSDK sdk ctx) w) =
    map (fun sp => (prov_addr (snd sp), ctx)) ps /\
  env (snd r) = env_after ctx (teardowns ps) s /\
  snd (fst r) = errors.Join [Some e; joined None outs] /\
  errors.IsT (snd (fst r)) e = true /\
  (forall x, In (Some x) outs -> errors.IsT (snd (fst r)) x = true).
Proof.
  intros H r outs. subst r outs.
  rewrite (emitted_failed w H), (setupOTelSDK_failed w H).
  cbn [fst snd env].
  repeat split.
  - destruct H; reflexivity.
  - destruct H; reflexivity.
  - apply errors_facts.IsT_Join_pair. right; left. apply errors_facts.Is_refl.
  - intros x Hx. apply errors_facts.IsT_Join_pair. right; right.
    apply IsT_joined. right; left.
    exists x. split; [assumption | apply errors_facts.Is_refl].
Qed.

(** C10: when a constructor fails, [setupOTelSDK] returns a non-nil error
    together with the closure [shutdown], and the registry is already
    empty: calling the closure later, with any context and whatever the
    SDK and the globals have become, calls no teardown, leaves the SDK
    untouched and returns nil. *)
Theorem setupOTelSDK_failure_leaves_idle_shutdown ctx w ps sig e s :
  constructed_then_failed sdk ctx (env w) ps sig e s ->
  let r := setupOTelSDK sdk ctx w in
  snd (fst r) <> None /\
  shutdownFuncs (snd r) = [] /\
  exists sh, fst (fst r) = Some sh /\
    forall c w2, shutdownFuncs w2 = shutdownFuncs (snd r) ->
      invocations (emitted (sh c) w2) = [] /\
      fst (sh c w2) = None /\
      env (snd (sh c w2)) = env w2.
Proof.
  intros H r. subst r. rewrite (setupOTelSDK_failed w H).
  cbn [fst snd shutdownFuncs].
  split; [| split; [reflexivity |]].
  - rewrite errors_facts.Join_pair. destruct (joined None _); discriminate.
  - exists (@shutdown Env). split; [reflexivity |].
    intros c w2 Hw2.
    rewrite (emitted_grow (shutdown c) w2 [EvShutdownCall c; EvShutdownReturn])
      by (rewrite shutdown_drained by assumption; reflexivity).
    rewrite shutdown_drained by assumption. auto.
Qed.

(** *** The order of the bootstrap *)

(** C7: on every exit path the construction, registration and publication
    steps [setupOTelSDK] performs are an initial part of: construct the
    tracer provider, register it, publish it; then the same for the meter
    provider; then the same for the logger provider.  When all three
    constructors succeed it performs the whole sequence.  The state agrees
    with the log.  The constructors run in the order tracer, meter,
    logger, each in the SDK state the one before left.  After a success
    the registry holds the three [Shutdown]s in that order and the three
    providers are the global ones.  When a constructor fails, the
    providers built before it, and only they, had been registered and
    published by then: they are the ones shut down, and they are the
    global providers of their signals. *)
Theorem setupOTelSDK_construction_order ctx w :
  (exists a1 a2 a3 rest,
     bootstrap_steps (emitted (setupOTelSDK sdk ctx) w) ++ rest =
     [EvConstruct Traces; EvAppend a1; EvSetProvider Traces a1;
      EvConstruct Metrics; EvAppend a2; EvSetProvider Metrics a2;
      EvConstruct Logs; EvAppend a3; EvSetProvider Logs a3]) /\
  (forall ps s, constructed sdk ctx (env w) ps s ->
     bootstrap_steps (emitted (setupOTelSDK sdk ctx) w) = stage_events ps /\
     map fst ps = [Traces; Metrics; Logs]) /\
  ((exists ps sig e s, constructed_then_failed sdk ctx (env w) ps sig e s) \/
   (exists ps s, constructed sdk ctx (env w) ps s)) /\
  (forall ps s, constructed sdk ctx (env w) ps s ->
     shutdownFuncs (snd (setupOTelSDK sdk ctx w)) = teardowns ps /\
     otel (snd (setupOTelSDK sdk ctx w)) =
       publish ps (set_propagator newPropagator (otel w)) /\
     (forall sg p, In (sg, p) ps ->
        get_provider sg (otel (snd (setupOTelSDK sdk ctx w))) = Some p) /\
     env (snd (setupOTelSDK sdk ctx w)) = s) /\
  (forall ps sig e s, constructed_then_failed sdk ctx (env w) ps sig e s ->
     (exists rest, [Traces; Metrics; Logs] = map fst ps ++ sig :: rest) /\
     bootstrap_steps (emitted (setupOTelSDK sdk ctx) w) =
       stage_events ps ++ [EvConstruct sig] /\
     otel (snd (setupOTelSDK sdk ctx w)) =
       publish ps (set_propagator newPropagator (otel w)) /\
     (forall sg p, In (sg, p) ps ->
        get_provider sg (otel (snd (setupOTelSDK sdk ctx w))) = Some p) /\
     env (snd (setupOTelSDK sdk ctx w)) = env_after ctx (teardowns ps) s /\
     snd (fst (setupOTelSDK sdk ctx w)) =
       errors.Join [Some e; joined None (outcomes ctx (teardowns ps) s)]).
Proof.
  split; [| split; [| split; [| split]]].
  - destruct (construction_cases ctx (env w)) as [(ps & sig & e & s & H) | (ps & s & H)].
    + rewrite (emitted_failed w H).
      destruct H as [e s H1 | tp s1 e s H1 H2 | tp s1 mp s2 e s H1 H2 H3]; cbn.
      * exists 0, 0, 0. eexists. reflexivity.
      * exists (prov_addr tp), 0, 0. eexists. reflexivity.
      * exists (prov_addr tp), (prov_addr mp), 0. eexists. reflexivity.
    + rewrite (emitted_succeeded w H).
      destruct H as (tp & s1 & mp & s2 & lp & H1 & H2 & H3 & ->). cbn.
      exists (prov_addr tp), (prov_addr mp), (prov_addr lp), []. reflexivity.
  - intros ps s H. rewrite (emitted_succeeded w H).
    destruct H as (tp & s1 & mp & s2 & lp & H1 & H2 & H3 & ->). cbn. auto.
  - apply construction_cases.
  - intros ps s H. rewrite (setupOTelSDK_succeeded w H).
    cbn [snd shutdownFuncs otel env].
    repeat split.
    destruct H as (tp & s1 & mp & s2 & lp & H1 & H2 & H3 & ->).
    intros sg p [Hin | [Hin | [Hin | []]]]; injection Hin as <- <-; reflexivity.
  - intros ps sig e s H.
    rewrite (emitted_failed w H), (setupOTelSDK_failed w H).
    cbn [fst snd otel env].
    destruct H as [e s H1 | tp s1 e s H1 H2 | tp s1 mp s2 e s H1 H2 H3].
    + repeat split; [eexists; reflexivity | intros sg p []].
    + repeat split; [eexists; reflexivity |].
      intros sg p [Hin | []]. injection Hin as <- <-. reflexivity.
    + repeat split; [eexists; reflexivity |].
      intros sg p [Hin | [Hin | []]]; injection Hin as <- <-; reflexivity.
Qed.

(** *** Registration comes before publication *)

Lemma publication_guarded_sound pre : forall reg s a post,
  publication_guarded reg (pre ++ EvSetProvider s a :: post) = true ->
  In a reg \/ In (EvAppend a) pre.
Proof.
  induction pre as [| e pre IH]; intros reg s a post H.
  - cbn in H. apply andb_prop in H. destruct H as [H _].
    apply existsb_exists in H. destruct H as (x & Hx & Hax).
    apply Nat.eqb_eq in Hax. subst x. now left.
  - destruct e; cbn in H;
      try (apply IH in H; destruct H as [H | H]; [now left | right; now right]).
    + apply IH in H. destruct H as [[H | H] | H].
      * subst tag. right; now left.
      * now left.
      * right; now right.
    + apply andb_prop in H. destruct H as [_ H].
      apply IH in H. destruct H as [H | H]; [now left | right; now right].
Qed.

Lemma setupOTelSDK_publication_guarded ctx w :
  publication_guarded [] (emitted (setupOTelSDK sdk ctx) w) = true.
Proof.
  destruct (construction_cases ctx (env w)) as [(ps & sig & e & s & H) | (ps & s & H)].
  - rewrite (emitted_failed w H).
    destruct H; cbn; rewrite ?Nat.eqb_refl; reflexivity.
  - rewrite (emitted_succeeded w H).
    destruct H as (tp & s1 & mp & s2 & lp & H1 & H2 & H3 & ->).
    cbn. rewrite ?Nat.eqb_refl. reflexivity.
Qed.

(** C8: in every run of [setupOTelSDK] a provider is published to the
    globals only while its [Shutdown] is in the registry, the append
    coming earlier in the log than the publication; and when the
    constructor for a signal fails, nothing is registered beyond the
    providers built before it, nothing is published for that signal, and
    the global provider of that signal is what it was.  The state agrees
    with the log: after a success every provider that is now global has
    its [Shutdown] in the registry, at the position of its signal; after
    a failure the providers that are now global are the ones built
    before it, and exactly their [Shutdown]s, taken from the registry,
    have run. *)
Theorem teardown_registered_before_publication ctx w :
  publication_guarded [] (emitted (setupOTelSDK sdk ctx) w) = true /\
  (forall pre s a post,
     emitted (setupOTelSDK sdk ctx) w = pre ++ EvSetProvider s a :: post ->
     In (EvAppend a) pre) /\
  (forall ps sig e s,
     constructed_then_failed sdk ctx (env w) ps sig e s ->
     appended (emitted (setupOTelSDK sdk ctx) w) =
       map (fun sp => prov_addr (snd sp)) ps /\
     published (emitted (setupOTelSDK sdk ctx) w) =
       map (fun sp => (fst sp, prov_addr (snd sp))) ps /\
     ~ In sig (map fst ps) /\
     get_provider sig (otel (snd (setupOTelSDK sdk ctx w))) =
       get_provider sig (otel w)) /\
  (forall ps s,
     constructed sdk ctx (env w) ps s ->
     shutdownFuncs (snd (setupOTelSDK sdk ctx w)) = teardowns ps /\
     otel (snd (setupOTelSDK sdk ctx w)) =
       publish ps (set_propagator newPropagator (otel w)) /\
     forall sg p, In (sg, p) ps ->
       get_provider sg (otel (snd (setupOTelSDK sdk ctx w))) = Some p /\
       In (Shutdown p) (shutdownFuncs (snd (setupOTelSDK sdk ctx w)))) /\
  (forall ps sig e s,
     constructed_then_failed sdk ctx (env w) ps sig e s ->
     otel (snd (setupOTelSDK sdk ctx w)) =
       publish ps (set_propagator newPropagator (otel w)) /\
     (forall sg p, In (sg, p) ps ->
        get_provider sg (otel (snd (setupOTelSDK sdk ctx w))) = Some p) /\
     env (snd (setupOTelSDK sdk ctx w)) = env_after ctx (teardowns ps) s /\
     snd (fst (setupOTelSDK sdk ctx w)) =
       errors.Join [Some e; joined None (outcomes ctx (teardowns ps) s)] /\
     shutdownFuncs (snd (setupOTelSDK sdk ctx w)) = []).
Proof.
  split; [apply setupOTelSDK_publication_guarded |].
  split; [| split; [| split]].
  - intros pre s a post Heq.
    pose proof (setupOTelSDK_publication_guarded ctx w) as G.
    rewrite Heq in G. apply publication_guarded_sound in G.
    destruct G as [[] | G]. exact G.
  - intros ps sig e s H.
    rewrite (emitted_failed w H), (setupOTelSDK_failed w H).
    destruct H; cbn; repeat split; try reflexivity; intuition discriminate.
  - intros ps s H. rewrite (setupOTelSDK_succeeded w H).
    cbn [snd shutdownFuncs otel].
    split; [reflexivity |]. split; [reflexivity |].
    destruct H as (tp & s1 & mp & s2 & lp & H1 & H2 & H3 & ->).
    intros sg p [Hin | [Hin | [Hin | []]]]; injection Hin as <- <-;
      (split; [reflexivity |]).
    + left. reflexivity.
    + right; left. reflexivity.
    + right; right; left. reflexivity.
  - intros ps sig e s H. rewrite (setupOTelSDK_failed w H).
    cbn [fst snd otel env shutdownFuncs].
    repeat split.
    destruct H as [e s H1 | tp s1 e s H1 H2 | tp s1 mp s2 e s H1 H2 H3].
    + intros sg p [].
    + intros sg p [Hin | []]. injection Hin as <- <-. reflexivity.
    + intros sg p [Hin | [Hin | []]]; injection Hin as <- <-; reflexivity.
Qed.

(** *** The caller's later calls *)

Lemma call_each_idle cs : forall w,
  shutdownFuncs w = [] ->
  call_each (@shutdown Env) cs w =
  (map (fun _ => None) cs,
   mkWorld (env w) (otel w) [] (trace w ++ idle_calls cs)).
Proof.
  induction cs as [| c cs IH]; intros w Hw.
  - destruct w; cbn in *. subst. now rewrite app_nil_r.
  - cbn [call_each]. unfold bind, ret. rewrite (shutdown_drained c w Hw).
    cbn [fst snd]. rewrite IH by reflexivity. cbn. now rewrite <- app_assoc.
Qed.

Lemma call_each_spec cs w :
  snd (call_each (@shutdown Env) cs w) =
  mkWorld (match cs with
           | [] => env w
           | c :: _ => env_after c (shutdownFuncs w) (env w)
           end)
          (otel w)
          (match cs with [] => shutdownFuncs w | _ :: _ => [] end)
          (trace w ++ caller_events cs (shutdownFuncs w)).
Proof.
  destruct cs as [| c cs].
  - destruct w; cbn. now rewrite app_nil_r.
  - cbn [call_each]. unfold bind, ret. rewrite (shutdown_spec c w).
    cbn [fst snd]. rewrite call_each_idle by reflexivity.
    cbn. now rewrite <- app_assoc.
Qed.

Lemma lifecycle_failed ctx cs w ps sig e s :
  constructed_then_failed sdk ctx (env w) ps sig e s ->
  snd (lifecycle sdk ctx cs w) =
  mkWorld (env_after ctx (teardowns ps) s)
          (publish ps (set_propagator newPropagator (otel w)))
          []
          (trace w ++ EvSetTextMapPropagator newPropagator
                   :: stage_events ps
                   ++ EvConstruct sig :: shutdown_events ctx (teardowns ps)
                   ++ idle_calls cs).
Proof.
  intros H. unfold lifecycle, bind, ret.
  rewrite (setupOTelSDK_failed w H). cbn [fst snd].
  rewrite call_each_idle by reflexivity. cbn [fst snd env otel trace].
  f_equal. rewrite <- app_assoc. cbn [app]. f_equal. f_equal.
  rewrite <- app_assoc. reflexivity.
Qed.

Lemma lifecycle_succeeded ctx cs w ps s :
  constructed sdk ctx (env w) ps s ->
  snd (lifecycle sdk ctx cs w) =
  mkWorld (match cs with
           | [] => s
           | c :: _ => env_after c (teardowns ps) s
           end)
          (publish ps (set_propagator newPropagator (otel w)))
          (match cs with [] => teardowns ps | _ :: _ => [] end)
          (trace w ++ EvSetTextMapPropagator newPropagator
                   :: stage_events ps ++ caller_events cs (teardowns ps)).
Proof.
  intros H. unfold lifecycle, bind, ret.
  rewrite (setupOTelSDK_succeeded w H). cbn [fst snd].
  rewrite call_each_spec. cbn [fst snd env otel trace shutdownFuncs].
  f_equal. rewrite <- app_assoc. reflexivity.
Qed.

Lemma TextMapPropagator_publish ps : forall g : globals Env,
  TextMapPropagator (publish ps g) = TextMapPropagator g.
Proof.
  induction ps as [| [sig p] ps IH]; intros g; [reflexivity |].
  cbn. unfold publish in IH. rewrite IH. destruct sig; reflexivity.
Qed.

(** C9: [setupOTelSDK] sets the global propagator as its first step, ahead
    of the first constructor; what it registers are the [Shutdown]s of the
    providers it publishes and nothing else; [shutdown] does not write the
    globals; so on every exit path, and after any later [shutdown] calls,
    the global propagator is the one [newPropagator] built. *)
Theorem propagator_stays_set ctx cs w :
  (exists rest,
     emitted (setupOTelSDK sdk ctx) w =
     EvSetTextMapPropagator newPropagator :: EvConstruct Traces :: rest) /\
  appended (emitted (setupOTelSDK sdk ctx) w) =
    map snd (published (emitted (setupOTelSDK sdk ctx) w)) /\
  TextMapPropagator (otel (snd (setupOTelSDK sdk ctx w))) = Some newPropagator /\
  (forall c w', otel (snd (shutdown c w')) = otel w') /\
  TextMapPropagator (otel (snd (lifecycle sdk ctx cs w))) = Some newPropagator.
Proof.
  destruct (construction_cases ctx (env w)) as [(ps & sig & e & s & H) | (ps & s & H)].
  - rewrite (emitted_failed w H), (setupOTelSDK_failed w H),
      (lifecycle_failed cs w H).
    cbn [snd otel]. rewrite TextMapPropagator_publish.
    repeat split.
    + destruct H; cbn; eexists; reflexivity.
    + destruct H; reflexivity.
    + intros c w'. now rewrite shutdown_spec.
  - rewrite (emitted_succeeded w H), (setupOTelSDK_succeeded w H),
      (lifecycle_succeeded cs w H).
    cbn [snd otel]. rewrite TextMapPropagator_publish.
    repeat split.
    + destruct H as (tp & s1 & mp & s2 & lp & H1 & H2 & H3 & ->).
      cbn; eexists; reflexivity.
    + destruct H as (tp & s1 & mp & s2 & lp & H1 & H2 & H3 & ->). reflexivity.
    + intros c w'. now rewrite shutdown_spec.
Qed.

(** *** The registry is drained once *)

Lemma phase_run_app (l r : list event) : forall ph,
  phase_run ph (l ++ r) =
  match phase_run ph l with
  | Some ph' => phase_run ph' r
  | None => None
  end.
Proof.
  induction l as [| e l IH]; intros ph; [reflexivity |].
  cbn. destruct (phase_step ph e); [apply IH | reflexivity].
Qed.

Lemma phase_run_stage_events (ps : list (signal * provider Env)) :
  phase_run Open (stage_events ps) = Some Open.
Proof. induction ps; cbn; auto. Qed.

Lemma phase_run_invokes c fns :
  phase_run Draining (map (fun fn => EvInvoke (fn_tag fn) c) fns ++ [EvShutdownReturn])
  = Some Drained.
Proof. induction fns; cbn; auto. Qed.

Lemma phase_run_shutdown_events c fns :
  phase_run Open (shutdown_events c fns) = Some Drained.
Proof. unfold shutdown_events. cbn. apply phase_run_invokes. Qed.

Lemma phase_run_idle_calls cs : phase_run Drained (idle_calls cs) = Some Drained.
Proof. induction cs; cbn; auto. Qed.

(** Once [Drained], a log the monitor accepts registers and runs nothing,
    and stays [Drained]. *)
Lemma phase_run_Drained evs : forall ph,
  phase_run Drained evs = Some ph ->
  ph = Drained /\ appended evs = [] /\ invocations evs = [].
Proof.
  induction evs as [| e evs IH]; intros ph H.
  - cbn in H. injection H as <-. auto.
  - destruct e; cbn in H; try discriminate; cbn; auto.
Qed.

Lemma shutdown_calls_app (l r : list event) :
  shutdown_calls (l ++ r) = shutdown_calls l + shutdown_calls r.
Proof.
  induction l as [| e l IH]; [reflexivity |].
  destruct e; cbn; rewrite IH; reflexivity.
Qed.

Lemma shutdown_calls_stage_events (ps : list (signal * provider Env)) :
  shutdown_calls (stage_events ps) = 0.
Proof. induction ps; cbn; auto. Qed.

(** C6: over the whole life of one coordinator, [setupOTelSDK] and then
    any calls of the closure it returned, the log is accepted by the
    registry monitor started in [Open]: teardowns are registered only
    before the first [shutdown] call and run only inside it.  The log ends
    in [Open] when [shutdown] was never called, and otherwise in [Drained]
    with the registry empty; and whatever follows a point where the
    registry is [Drained] registers and runs nothing. *)
Theorem registry_drains_once ctx cs w :
  let evs := emitted (lifecycle sdk ctx cs) w in
  let w' := snd (lifecycle sdk ctx cs w) in
  ((shutdown_calls evs = 0 /\ phase_run Open evs = Some Open) \/
   (0 < shutdown_calls evs /\ phase_run Open evs = Some Drained /\
    shutdownFuncs w' = [])) /\
  (forall pre post,
     evs = pre ++ post -> phase_run Open pre = Some Drained ->
     appended post = [] /\ invocations post = []).
Proof.
  intros evs w'.
  assert (Hmain :
    (shutdown_calls evs = 0 /\ phase_run Open evs = Some Open) \/
    (0 < shutdown_calls evs /\ phase_run Open evs = Some Drained /\
     shutdownFuncs w' = [])).
  { subst evs w'.
    destruct (construction_cases ctx (env w))
      as [(ps & sig & e & s & H) | (ps & s & H)].
    - right.
      rewrite (emitted_grow (lifecycle sdk ctx cs) w
        (EvSetTextMapPropagator newPropagator
           :: stage_events ps
           ++ EvConstruct sig :: shutdown_events ctx (teardowns ps)
           ++ idle_calls cs))
        by (rewrite (lifecycle_failed cs w H); reflexivity).
      rewrite (lifecycle_failed cs w H). cbn [shutdownFuncs].
      repeat split.
      + cbn [shutdown_calls]. rewrite shutdown_calls_app. cbn. lia.
      + cbn [phase_run phase_step].
        rewrite phase_run_app, phase_run_stage_events.
        cbn [phase_run phase_step].
        rewrite phase_run_app, phase_run_shutdown_events.
        apply phase_run_idle_calls.
    - rewrite (emitted_grow (lifecycle sdk ctx cs) w
        (EvSetTextMapPropagator newPropagator
           :: stage_events ps ++ caller_events cs (teardowns ps)))
        by (rewrite (lifecycle_succeeded cs w H); reflexivity).
      rewrite (lifecycle_succeeded cs w H). cbn [shutdownFuncs].
      cbn [shutdown_calls phase_run phase_step].
      rewrite shutdown_calls_app, shutdown_calls_stage_events.
      rewrite phase_run_app, phase_run_stage_events.
      destruct cs as [| c cs].
      + left. cbn. auto.
      + right. cbn [caller_events].
        rewrite phase_run_app, phase_run_shutdown_events.
        repeat split.
        * cbn. lia.
        * apply phase_run_idle_calls. }
  split; [exact Hmain |].
  intros pre post Hevs Hpre.
  assert (Hacc : exists ph, phase_run Open evs = Some ph)
    by (destruct Hmain as [[_ H] | [_ [H _]]]; eauto).
  destruct Hacc as (ph & Hph).
  rewrite Hevs, phase_run_app, Hpre in Hph.
  apply phase_run_Drained in Hph. tauto.
Qed.

End Properties.

(** ** The model on the demo SDK *)

(** The metric reader cannot be created: the tracer provider, already
    registered, is shut down, and its own failure is joined in. *)
Example metric_reader_missing :
  let r := setupOTelSDK (Demo.sdk (Some Metrics)) Demo.background Demo.fresh in
  snd (fst r) =
    Some (errors.joinError
            [Demo.no_exporter; errors.joinError [Demo.flush_failed]]) /\
  env (snd r) = [1] /\
  invocations (trace (snd r)) = [(1, Demo.background)].
Proof. repeat split. Qed.

(** Five operations, the second and fourth failing, an interrupted
    context: all five run, in order. *)
Example five_operations_interrupted :
  let r := shutdown Demo.interrupted Demo.loaded in
  env (snd r) = [5; 4; 3; 2; 1] /\
  invocations (trace (snd r)) =
    map (fun k => (k, Demo.interrupted)) [1; 2; 3; 4; 5] /\
  errors.IsT (fst r) Demo.flush_failed = true /\
  errors.IsT (fst r) Demo.canceled = true /\
  errors.IsT (fst r) Demo.no_exporter = false.
Proof. repeat split. Qed.

Lemma shutdown_no_short_circuit_witness :
  nth_error (shutdownFuncs Demo.loaded) 2 = Some (Shutdown (Demo.polite 3)) /\
  nth_error (invocations (emitted (shutdown Demo.interrupted) Demo.loaded)) 2 =
    Some (3, Demo.interrupted) /\
  length (invocations (emitted (shutdown Demo.interrupted) Demo.loaded)) = 5 /\
  length (outcomes Demo.interrupted Demo.fns5 []) = 5 /\
  env (snd (shutdown Demo.interrupted Demo.loaded)) = [5; 4; 3; 2; 1].
Proof.
  split; [reflexivity |].
  apply (@shutdown_no_short_circuit Demo.Env Demo.interrupted Demo.loaded 2
           (Shutdown (Demo.polite 3))).
  reflexivity.
Defined.

Lemma setupOTelSDK_rolls_back_witness :
  constructed_then_failed (Demo.sdk (Some Logs)) Demo.background []
    [(Traces, Demo.broken 1); (Metrics, Demo.polite 2)] Logs Demo.no_exporter [] /\
  invocations
    (emitted (setupOTelSDK (Demo.sdk (Some Logs)) Demo.background) Demo.fresh) =
    [(1, Demo.background); (2, Demo.background)] /\
  env (snd (setupOTelSDK (Demo.sdk (Some Logs)) Demo.background Demo.fresh)) =
    [2; 1] /\
  snd (fst (setupOTelSDK (Demo.sdk (Some Logs)) Demo.background Demo.fresh)) =
    errors.Join [Some Demo.no_exporter;
                 joined None [Some Demo.flush_failed; None]].
Proof.
  assert (H : constructed_then_failed (Demo.sdk (Some Logs)) Demo.background
                (env Demo.fresh)
                [(Traces, Demo.broken 1); (Metrics, Demo.polite 2)] Logs
                Demo.no_exporter []).
  { apply failed_logs with (s1 := []) (s2 := []); reflexivity. }
  split; [exact H |].
  pose proof (setupOTelSDK_rolls_back Demo.fresh H) as T.
  cbv zeta in T.
  destruct T as (_ & Hinv & Henv & Herr & _).
  split; [exact Hinv |]. split; [exact Henv | exact Herr].
Defined.

Lemma setupOTelSDK_failure_leaves_idle_shutdown_witness :
  constructed_then_failed (Demo.sdk (Some Metrics)) Demo.background []
    [(Traces, Demo.broken 1)] Metrics Demo.no_exporter [] /\
  snd (fst (setupOTelSDK (Demo.sdk (Some Metrics)) Demo.background Demo.fresh))
    <> None /\
  shutdownFuncs
    (snd (setupOTelSDK (Demo.sdk (Some Metrics)) Demo.background Demo.fresh)) = [].
Proof.
  assert (H : constructed_then_failed (Demo.sdk (Some Metrics)) Demo.background
                (env Demo.fresh) [(Traces, Demo.broken 1)] Metrics
                Demo.no_exporter []).
  { apply failed_metrics with (s1 := []); reflexivity. }
  split; [exact H |].
  pose proof (setupOTelSDK_failure_leaves_idle_shutdown Demo.fresh H) as T.
  cbv zeta in T.
  destruct T as (Herr & Hreg & _).
  split; [exact Herr | exact Hreg].
Defined.

Lemma shutdown_aggregates_failures_witness :
  In (Some Demo.flush_failed) (outcomes Demo.interrupted Demo.fns5 []) /\
  errors.IsT (fst (shutdown Demo.interrupted Demo.loaded)) Demo.flush_failed = true.
Proof.
  split.
  - right; left; reflexivity.
  - apply (proj1 (shutdown_aggregates_failures Demo.interrupted Demo.loaded)).
    right; left; reflexivity.
Defined.

Lemma setupOTelSDK_construction_order_witness :
  constructed (Demo.sdk None) Demo.background []
    [(Traces, Demo.broken 1); (Metrics, Demo.polite 2); (Logs, Demo.polite 3)] [] /\
  bootstrap_steps (emitted (setupOTelSDK (Demo.sdk None) Demo.background) Demo.fresh) =
    [EvConstruct Traces; EvAppend 1; EvSetProvider Traces 1;
     EvConstruct Metrics; EvAppend 2; EvSetProvider Metrics 2;
     EvConstruct Logs; EvAppend 3; EvSetProvider Logs 3].
Proof.
  assert (H : constructed (Demo.sdk None) Demo.background (env Demo.fresh)
                [(Traces, Demo.broken 1); (Metrics, Demo.polite 2);
                 (Logs, Demo.polite 3)] []).
  { exists (Demo.broken 1), [], (Demo.polite 2), [], (Demo.polite 3).
    repeat split. }
  split; [exact H |].
  exact (proj1 (proj1 (proj2 (setupOTelSDK_construction_order (Demo.sdk None)
                                Demo.background Demo.fresh)) _ _ H)).
Defined.

Lemma teardown_registered_before_publication_witness :
  let pre := [EvSetTextMapPropagator newPropagator;
              EvConstruct Traces; EvAppend 1; EvSetProvider Traces 1;
              EvConstruct Metrics; EvAppend 2] in
  let post := [EvConstruct Logs; EvShutdownCall Demo.background;
               EvInvoke 1 Demo.background; EvInvoke 2 Demo.background;
               EvShutdownReturn] in
  emitted (setupOTelSDK (Demo.sdk (Some Logs)) Demo.background) Demo.fresh =
    pre ++ EvSetProvider Metrics 2 :: post /\
  In (EvAppend 2) pre.
Proof.
  intros pre post. split; [reflexivity |].
  apply (proj1 (proj2 (teardown_registered_before_publication
                         (Demo.sdk (Some Logs)) Demo.background Demo.fresh))
           pre Metrics 2 post).
  reflexivity.
Defined.

Lemma registry_drains_once_witness :
  let evs := emitted (lifecycle (Demo.sdk None) Demo.background
                        [Demo.interrupted; Demo.background]) Demo.fresh in
  let post := [EvShutdownCall Demo.background; EvShutdownReturn] in
  let pre := firstn (length evs - 2) evs in
  evs = pre ++ post /\
  phase_run Open pre = Some Drained /\
  appended post = [] /\ invocations post = [].
Proof.
  intros evs post pre.
  split; [reflexivity |]. split; [reflexivity |].
  apply (proj2 (registry_drains_once (Demo.sdk None) Demo.background
                  [Demo.interrupted; Demo.background] Demo.fresh) pre post);
    reflexivity.
Defined.

Lemma shutdown_runs_in_registration_order_witness :
  nth_error (shutdownFuncs Demo.loaded) 3 = Some (Shutdown (Demo.broken 4)) /\
  nth_error (outcomes Demo.interrupted (shutdownFuncs Demo.loaded) []) 3 =
    Some (fst (fn_call (Shutdown (Demo.broken 4)) Demo.interrupted [3; 2; 1])) /\
  env_after Demo.interrupted (firstn 4 (shutdownFuncs Demo.loaded)) [] =
    [4; 3; 2; 1] /\
  env (snd (shutdown Demo.interrupted Demo.loaded)) = [5; 4; 3; 2; 1].
Proof.
  assert (Hk : nth_error (shutdownFuncs Demo.loaded) 3 =
               Some (Shutdown (Demo.broken 4))) by reflexivity.
  pose proof (shutdown_runs_in_registration_order Demo.fns5 Demo.interrupted
                Demo.loaded) as T.
  destruct T as (_ & _ & _ & _ & _ & _ & Henv & Hnth).
  destruct (Hnth 3 (Shutdown (Demo.broken 4)) Hk) as [Hout Hstep].
  split; [exact Hk |]. split; [exact Hout |]. split; [exact Hstep | exact Henv].
Defined.

(** ** More about the coordinator *)

Section CoordinatorExtras.

Local Unset Implicit Arguments.

Variable Env : Type.
Variable Exporter : Type.
Variable sdk : SDK Env Exporter.

Implicit Types (w : world Env) (ctx c : context).

(** *** Order and multiplicity inside the aggregate *)

Lemma leavesT_Join_pair (a r : errors.t) :
  leavesT (errors.Join [a; r]) = leavesT a ++ leavesT r.
Proof.
  rewrite errors_facts.Join_pair.
  destruct a as [x |], r as [y |]; cbn; rewrite ?app_nil_r; reflexivity.
Qed.

Lemma leavesT_joined rs : forall acc,
  leavesT (joined acc rs) = leavesT acc ++ flat_map leavesT rs.
Proof.
  induction rs as [| r rs IH]; intros acc.
  - cbn. now rewrite app_nil_r.
  - rewrite joined_cons, IH, leavesT_Join_pair, <- app_assoc. reflexivity.
Qed.

(** The library errors inside what [shutdown] returns are those of the
    operations' results, in call order and as often as they occurred. *)
Theorem shutdown_keeps_order_of_errors ctx w :
  leavesT (fst (shutdown ctx w)) =
  flat_map leavesT (outcomes ctx (shutdownFuncs w) (env w)).
Proof. rewrite shutdown_spec. cbn [fst]. apply leavesT_joined. Qed.

(** The error of a failed [setupOTelSDK] lists the constructor's error
    first and then the teardown errors in call order. *)
Theorem setupOTelSDK_error_lists_cause_first ctx w ps sig e s :
  constructed_then_failed sdk ctx (env w) ps sig e s ->
  leavesT (snd (fst (setupOTelSDK sdk ctx w))) =
  leaves e ++ flat_map leavesT (outcomes ctx (teardowns ps) s).
Proof.
  intros Hc. rewrite (setupOTelSDK_failed w Hc). cbn [fst snd].
  rewrite leavesT_Join_pair, leavesT_joined. reflexivity.
Qed.

(** *** The exit paths of [setupOTelSDK] *)

(** [setupOTelSDK] returns a nil error exactly when all three
    constructors succeeded. *)
Theorem setupOTelSDK_nil_iff_constructed ctx w :
  snd (fst (setupOTelSDK sdk ctx w)) = None <->
  exists ps s, constructed sdk ctx (env w) ps s.
Proof.
  split.
  - intros Hnil.
    destruct (construction_cases sdk ctx (env w))
      as [(ps & sig & e & s & Hc) | Hok]; [| exact Hok].
    rewrite (setupOTelSDK_failed w Hc) in Hnil. cbn [fst snd] in Hnil.
    rewrite errors_facts.Join_pair in Hnil.
    destruct (joined None _); discriminate.
  - intros (ps & s & Hc). now rewrite (setupOTelSDK_succeeded w Hc).
Qed.

(** After a successful [setupOTelSDK] nothing has been shut down, the SDK
    is in the state the constructors left, the registry is the three
    [Shutdown]s in the order tracer, meter, logger, the three providers
    are the global ones, and the returned closure, called once, shuts
    them down in that order: it calls them front to back, leaves the SDK
    in the state those calls produce, returns the aggregate of their
    results and empties the registry. *)
Theorem setupOTelSDK_success_state ctx w ps s :
  constructed sdk ctx (env w) ps s ->
  let r := setupOTelSDK sdk ctx w in
  map fst ps = [Traces; Metrics; Logs] /\
  invocations (emitted (setupOTelSDK sdk ctx) w) = [] /\
  env (snd r) = s /\
  shutdownFuncs (snd r) = teardowns ps /\
  snd (fst r) = None /\
  otel (snd r) = publish ps (set_propagator newPropagator (otel w)) /\
  (forall sg p, In (sg, p) ps -> get_provider sg (otel (snd r)) = Some p) /\
  exists sh, fst (fst r) = Some sh /\
    forall c,
      invocations (emitted (sh c) (snd r)) =
        map (fun sp => (prov_addr (snd sp), c)) ps /\
      fst (sh c (snd r)) = joined None (outcomes c (teardowns ps) s) /\
      env (snd (sh c (snd r))) = env_after c (teardowns ps) s /\
      shutdownFuncs (snd (sh c (snd r))) = [] /\
      otel (snd (sh c (snd r))) = otel (snd r).
Proof.
  intros Hc r. subst r.
  rewrite (emitted_succeeded w Hc), (setupOTelSDK_succeeded w Hc).
  cbn [fst snd env otel shutdownFuncs].
  destruct Hc as (tp & s1 & mp & s2 & lp & H1 & H2 & H3 & ->).
  repeat split.
  - intros sg p [Hin | [Hin | [Hin | []]]]; injection Hin as <- <-; reflexivity.
  - exists (@shutdown Env). split; [reflexivity |].
    intros c.
    rewrite (emitted_grow (shutdown c) _
               (shutdown_events c
                  (teardowns [(Traces, tp); (Metrics, mp); (Logs, lp)])))
      by (rewrite shutdown_spec; reflexivity).
    rewrite shutdown_spec. repeat split.
Qed.

(** A provider published before a later constructor failed stays the
    global provider of its signal, although [setupOTelSDK] has already
    called its [Shutdown]. *)
Theorem setupOTelSDK_failure_keeps_published ctx w ps sig e s sg p :
  constructed_then_failed sdk ctx (env w) ps sig e s ->
  In (sg, p) ps ->
  get_provider sg (otel (snd (setupOTelSDK sdk ctx w))) = Some p /\
  In (prov_addr p, ctx) (invocations (emitted (setupOTelSDK sdk ctx) w)).
Proof.
  intros Hc Hin.
  rewrite (emitted_failed w Hc), (setupOTelSDK_failed w Hc). cbn [snd otel].
  destruct Hc; cbn in Hin.
  - destruct Hin.
  - destruct Hin as [Hin | []]. injection Hin as <- <-.
    split; [reflexivity | now left].
  - destruct Hin as [Hin | [Hin | []]]; injection Hin as <- <-.
    + split; [reflexivity | now left].
    + split; [reflexivity | right; now left].
Qed.

(** On every exit path of [setupOTelSDK], each teardown it registered has
    either been called, or is still in the registry: the registrations,
    in order, are the calls made followed by the registry left.  In the
    state: either all constructors succeeded, the registry is the
    [Shutdown]s of the providers built and the SDK is as the constructors
    left it; or one failed, the registry is empty and the SDK is in the
    state the [Shutdown]s of the providers built before, called in
    order, produce. *)
Theorem setupOTelSDK_accounts_for_registrations ctx w :
  let r := setupOTelSDK sdk ctx w in
  appended (emitted (setupOTelSDK sdk ctx) w) =
    map fst (invocations (emitted (setupOTelSDK sdk ctx) w))
      ++ map (@fn_tag Env) (shutdownFuncs (snd r)) /\
  ((exists ps s,
      constructed sdk ctx (env w) ps s /\
      appended (emitted (setupOTelSDK sdk ctx) w) =
        map (fun sp => prov_addr (snd sp)) ps /\
      shutdownFuncs (snd r) = teardowns ps /\
      env (snd r) = s /\
      snd (fst r) = None) \/
   (exists ps sig e s,
      constructed_then_failed sdk ctx (env w) ps sig e s /\
      appended (emitted (setupOTelSDK sdk ctx) w) =
        map (fun sp => prov_addr (snd sp)) ps /\
      shutdownFuncs (snd r) = [] /\
      env (snd r) = env_after ctx (teardowns ps) s /\
      snd (fst r) =
        errors.Join [Some e; joined None (outcomes ctx (teardowns ps) s)])).
Proof.
  intros r. subst r.
  destruct (construction_cases sdk ctx (env w))
    as [(ps & sig & e & s & Hc) | (ps & s & Hc)].
  - rewrite (emitted_failed w Hc), (setupOTelSDK_failed w Hc). split.
    + destruct Hc; reflexivity.
    + right. exists ps, sig, e, s. cbn [fst snd shutdownFuncs env].
      repeat split; [exact Hc |]. destruct Hc; reflexivity.
  - rewrite (emitted_succeeded w Hc), (setupOTelSDK_succeeded w Hc). split.
    + destruct Hc as (tp & s1 & mp & s2 & lp & H1 & H2 & H3 & ->).
      reflexivity.
    + left. exists ps, s. cbn [fst snd shutdownFuncs env].
      repeat split; [exact Hc |].
      destruct Hc as (tp & s1 & mp & s2 & lp & H1 & H2 & H3 & ->).
      reflexivity.
Qed.

End CoordinatorExtras.

(** ** Properties of the programs *)

Section ProgramProperties.

Local Unset Implicit Arguments.

Local Open Scope host_scope.

Variable Env : Type.
Variable Exporter : Type.
Variable sdk : SDK Env Exporter.
Variable srv : ServerAPI Env.
Variable mapi : MetricsAPI Env Exporter.

Implicit Types (h : host Env) (w : world Env) (ctx c : context).

(** *** Running a program step by step *)

Lemma hbind_eq {A B} {m : Prog Env A} (k : A -> Prog Env B) {h a h'} :
  m h = (a, h') -> hbind m k h = k a h'.
Proof. unfold hbind. now intros ->. Qed.

Lemma hemit_eq e h : hemit e h = (tt, mkHost (hw h) (hlog h ++ [e])).
Proof. reflexivity. Qed.

Lemma liftC_eq {A} (m : M Env A) h {a w'} evs :
  m (hw h) = (a, w') ->
  trace w' = trace (hw h) ++ evs ->
  liftC m h = (a, mkHost w' (hlog h ++ map HCoord evs)).
Proof.
  intros Hm Ht. unfold liftC.
  rewrite (emitted_grow m (hw h) evs) by (rewrite Hm; exact Ht).
  now rewrite Hm.
Qed.

Lemma hext_eq {A} (c : extcall Env A) h {a s} :
  c (env (hw h)) = (a, s) ->
  hext c h =
  (a, mkHost (mkWorld s (otel (hw h)) (shutdownFuncs (hw h)) (trace (hw h)))
             (hlog h)).
Proof.
  intros Hc. unfold hext.
  rewrite (@liftC_eq _ (ext c) h a
             (mkWorld s (otel (hw h)) (shutdownFuncs (hw h)) (trace (hw h))) []).
  - cbn. now rewrite app_nil_r.
  - unfold ext. now rewrite Hc.
  - cbn. now rewrite app_nil_r.
Qed.

Lemma hemitted_grow {A} (m : Prog Env A) h evs :
  hlog (snd (m h)) = hlog h ++ evs -> hemitted m h = evs.
Proof. unfold hemitted. intros ->. apply skipn_length_app. Qed.

Lemma stop_eq h :
  stop srv h =
  (tt, mkHost (mkWorld (snd (signal_stop srv (env (hw h)))) (otel (hw h))
                       (shutdownFuncs (hw h)) (trace (hw h)))
              (hlog h ++ [HStop])).
Proof.
  unfold stop. rewrite (hbind_eq _ (hemit_eq _ _)).
  rewrite (@hext_eq _ (signal_stop srv) _ tt
             (snd (signal_stop srv (env (hw h))))).
  - reflexivity.
  - cbn. destruct (signal_stop srv (env (hw h))) as [[] s]. reflexivity.
Qed.

Lemma wait_for_end_eq h woke s2 :
  srvErr_or_Done srv (env (hw h)) = (woke, s2) ->
  wait_for_end srv h =
  (first_error srv woke s2,
   mkHost (mkWorld (state_at_return srv woke s2) (otel (hw h))
                   (shutdownFuncs (hw h)) (trace (hw h)))
          (hlog h ++ wake_events woke)).
Proof.
  intros Hsel. unfold wait_for_end.
  rewrite (hbind_eq _ (hext_eq _ _ Hsel)).
  destruct woke as [e | u].
  - rewrite (hbind_eq _ (hemit_eq _ _)). reflexivity.
  - rewrite (hbind_eq _ (hemit_eq _ _)), (hbind_eq _ (stop_eq _)).
    rewrite (hbind_eq _ (hemit_eq _ _)).
    cbn [hw hlog env otel shutdownFuncs trace].
    rewrite (hext_eq _ _ (surjective_pairing _)).
    cbn [hw hlog env otel shutdownFuncs trace first_error state_at_return
         wake_events].
    repeat rewrite <- app_assoc. reflexivity.
Qed.

(** *** [run], exit path by exit path *)

Lemma run_setup_failed h ctx s0 ps sig e s :
  signal_NotifyContext srv (env (hw h)) = (ctx, s0) ->
  constructed_then_failed sdk ctx s0 ps sig e s ->
  run sdk srv h =
  (Returned (errors.Join [Some e; joined None (outcomes ctx (teardowns ps) s)]),
   mkHost (mkWorld (snd (signal_stop srv (env_after ctx (teardowns ps) s)))
                   (publish ps (set_propagator newPropagator (otel (hw h))))
                   []
                   (trace (hw h)
                      ++ EvSetTextMapPropagator newPropagator
                      :: stage_events ps
                      ++ EvConstruct sig :: shutdown_events ctx (teardowns ps)))
          (hlog h
             ++ HNotifyContext ctx
             :: map HCoord
                  (EvSetTextMapPropagator newPropagator
                     :: stage_events ps
                     ++ EvConstruct sig :: shutdown_events ctx (teardowns ps))
             ++ [HStop])).
Proof.
  intros Hctx Hc. unfold run.
  rewrite (hbind_eq _ (hext_eq _ _ Hctx)), (hbind_eq _ (hemit_eq _ _)).
  cbn [hw hlog].
  match goal with
  | |- hbind (liftC ?m) ?k ?h0 = _ =>
      rewrite (hbind_eq k (liftC_eq m h0 _ (setupOTelSDK_failed (hw h0) Hc) eq_refl))
  end.
  cbn [fst snd]. unfold errors.Join at 1. cbn [errors.nonnil].
  rewrite (hbind_eq _ (stop_eq _)).
  cbn [hw hlog env otel shutdownFuncs trace hret].
  unfold errors.Join. cbn [errors.nonnil].
  repeat rewrite <- app_assoc. reflexivity.
Qed.

Lemma run_served h ctx s0 ps s woke s2 :
  signal_NotifyContext srv (env (hw h)) = (ctx, s0) ->
  constructed sdk ctx s0 ps s ->
  srvErr_or_Done srv (snd (go_ListenAndServe srv ctx s)) = (woke, s2) ->
  run sdk srv h =
  (Returned
     (errors.Join
        [first_error srv woke s2;
         joined None
           (outcomes Background (teardowns ps) (state_at_return srv woke s2))]),
   mkHost (mkWorld (snd (signal_stop srv
                           (env_after Background (teardowns ps)
                              (state_at_return srv woke s2))))
                   (publish ps (set_propagator newPropagator (otel (hw h))))
                   []
                   (trace (hw h)
                      ++ (EvSetTextMapPropagator newPropagator :: stage_events ps)
                      ++ shutdown_events Background (teardowns ps)))
          (hlog h
             ++ HNotifyContext ctx
             :: map HCoord (EvSetTextMapPropagator newPropagator :: stage_events ps)
             ++ [HListenAndServe ctx; HLoggerInfo text.listening]
             ++ wake_events woke
             ++ map HCoord (shutdown_events Background (teardowns ps))
             ++ [HStop])).
Proof.
  intros Hctx Hc Hsel. unfold run.
  rewrite (hbind_eq _ (hext_eq _ _ Hctx)), (hbind_eq _ (hemit_eq _ _)).
  cbn [hw hlog].
  match goal with
  | |- hbind (liftC ?m) ?k ?h0 = _ =>
      rewrite (hbind_eq k (liftC_eq m h0 _ (setupOTelSDK_succeeded (hw h0) Hc) eq_refl))
  end.
  cbn [fst snd].
  rewrite (hbind_eq _ (hemit_eq _ _)).
  rewrite (hbind_eq _ (hext_eq _ _ (surjective_pairing _))).
  rewrite (hbind_eq _ (hemit_eq _ _)).
  cbn [hw hlog env otel shutdownFuncs trace].
  match goal with
  | |- hbind _ ?k ?h0 = _ =>
      rewrite (hbind_eq k (wait_for_end_eq h0 woke s2 Hsel))
  end.
  unfold deferred.
  cbn [hw hlog env otel shutdownFuncs trace].
  match goal with
  | |- hbind (liftC ?m) ?k ?h0 = _ =>
      rewrite (hbind_eq k (liftC_eq m h0 _ (shutdown_spec _ (hw h0)) eq_refl))
  end.
  rewrite (hbind_eq _ (stop_eq _)).
  cbn [hw hlog env otel shutdownFuncs trace hret].
  repeat rewrite <- app_assoc. cbn [app].
  repeat rewrite <- app_assoc. reflexivity.
Qed.

(** *** Reading a program's log *)

Lemma coord_app (l r : list hevent) : coord (l ++ r) = coord l ++ coord r.
Proof.
  induction l as [| e l IH]; [reflexivity |].
  destruct e; cbn; rewrite IH; reflexivity.
Qed.

Lemma coord_HCoord (evs : list event) : coord (map HCoord evs) = evs.
Proof.
  induction evs as [| e evs IH]; [reflexivity |].
  cbn [map coord]. now rewrite IH.
Qed.

Lemma host_steps_app (l r : list hevent) :
  host_steps (l ++ r) = host_steps l ++ host_steps r.
Proof.
  induction l as [| e l IH]; [reflexivity |].
  destruct e; cbn; rewrite IH; reflexivity.
Qed.

Lemma host_steps_HCoord (evs : list event) : host_steps (map HCoord evs) = [].
Proof. induction evs; cbn; auto. Qed.

Lemma coord_wake_events woke : coord (wake_events woke) = [].
Proof. destruct woke; reflexivity. Qed.

Lemma host_steps_wake_events woke :
  host_steps (wake_events woke) = wake_events woke.
Proof. destruct woke; reflexivity. Qed.

Lemma invocations_stage_events (ps : list (signal * provider Env)) :
  invocations (stage_events ps) = [].
Proof. induction ps; cbn; auto. Qed.

Lemma appended_app (l r : list event) :
  appended (l ++ r) = appended l ++ appended r.
Proof.
  induction l as [| e l IH]; [reflexivity |].
  destruct e; cbn; rewrite IH; reflexivity.
Qed.

Lemma appended_stage_events (ps : list (signal * provider Env)) :
  appended (stage_events ps) = map (fun sp => prov_addr (snd sp)) ps.
Proof.
  induction ps as [| sp ps IH]; [reflexivity |].
  cbn. f_equal. exact IH.
Qed.

Lemma appended_shutdown_events c (fns : list (teardown Env)) :
  appended (shutdown_events c fns) = [].
Proof.
  unfold shutdown_events. cbn. rewrite appended_app. cbn.
  rewrite app_nil_r. induction fns; cbn; auto.
Qed.

Lemma invocations_teardowns c (ps : list (signal * provider Env)) :
  invocations (shutdown_events c (teardowns ps)) =
  map (fun sp => (prov_addr (snd sp), c)) ps.
Proof.
  rewrite invocations_shutdown_events. unfold teardowns.
  rewrite map_map. reflexivity.
Qed.

Ltac read_log :=
  repeat first
    [ rewrite coord_app | rewrite host_steps_app
    | rewrite coord_HCoord | rewrite host_steps_HCoord
    | rewrite coord_wake_events | rewrite host_steps_wake_events
    | rewrite invocations_stage_events | rewrite appended_stage_events
    | rewrite appended_shutdown_events | rewrite invocations_teardowns
    | rewrite invocations_app | rewrite appended_app
    | rewrite app_nil_r
    | progress cbn [coord host_steps invocations appended app] ].

(** *** [run] *)

(** When a constructor fails, [run] returns the error of [setupOTelSDK]
    without starting the server: besides the signal registration and the
    deferred [stop()] it does nothing of its own, the providers built so
    far have been shut down, once each and with the signal context, and
    the closure is not called again. *)
Theorem run_returns_early_when_setup_fails h ctx s0 ps sig e s :
  signal_NotifyContext srv (env (hw h)) = (ctx, s0) ->
  constructed_then_failed sdk ctx s0 ps sig e s ->
  fst (run sdk srv h) =
    Returned (errors.Join [Some e; joined None (outcomes ctx (teardowns ps) s)]) /\
  host_steps (hemitted (run sdk srv) h) = [HNotifyContext ctx; HStop] /\
  invocations (coord (hemitted (run sdk srv) h)) =
    map (fun sp => (prov_addr (snd sp), ctx)) ps /\
  shutdown_calls (coord (hemitted (run sdk srv) h)) = 1 /\
  shutdownFuncs (hw (snd (run sdk srv h))) = [].
Proof.
  intros Hctx Hc.
  rewrite (hemitted_grow (run sdk srv) h _
             (f_equal (fun r => hlog (snd r)) (run_setup_failed h _ _ _ _ _ _ Hctx Hc))).
  rewrite (run_setup_failed h _ _ _ _ _ _ Hctx Hc).
  cbn [fst snd hw hlog shutdownFuncs].
  repeat split.
  - cbn [host_steps]. read_log. reflexivity.
  - cbn [coord]. read_log. cbn [invocations]. read_log. reflexivity.
  - cbn [coord]. read_log. destruct Hc; reflexivity.
Qed.

(** After a successful [setupOTelSDK], whichever way the [select] goes,
    [run] shuts every provider down exactly once, with
    [context.Background()] and in registration order; all of that comes
    after the server part of the run, and so after [srv.Shutdown] when the
    run was interrupted; and [stop()] is the last thing [run] does.  In
    the state: the [Shutdown]s run, front to back, from the SDK state in
    which the server part ended, [stop()] runs in the state they leave,
    their results are what [run] joins to the server's error, and the
    registry ends empty. *)
Theorem run_shuts_down_after_serving h ctx s0 ps s woke s2 :
  signal_NotifyContext srv (env (hw h)) = (ctx, s0) ->
  constructed sdk ctx s0 ps s ->
  srvErr_or_Done srv (snd (go_ListenAndServe srv ctx s)) = (woke, s2) ->
  invocations (coord (hemitted (run sdk srv) h)) =
    map (fun sp => (prov_addr (snd sp), Background)) ps /\
  host_steps (hemitted (run sdk srv) h) =
    [HNotifyContext ctx; HListenAndServe ctx; HLoggerInfo text.listening]
      ++ wake_events woke ++ [HStop] /\
  (exists pre,
     hemitted (run sdk srv) h =
       pre ++ map HCoord (shutdown_events Background (teardowns ps)) ++ [HStop] /\
     invocations (coord pre) = [] /\
     host_steps pre =
       [HNotifyContext ctx; HListenAndServe ctx; HLoggerInfo text.listening]
         ++ wake_events woke) /\
  shutdownFuncs (hw (snd (run sdk srv h))) = [] /\
  env (hw (snd (run sdk srv h))) =
    snd (signal_stop srv
           (env_after Background (teardowns ps) (state_at_return srv woke s2))) /\
  fst (run sdk srv h) =
    Returned
      (errors.Join
         [first_error srv woke s2;
          joined None
            (outcomes Background (teardowns ps) (state_at_return srv woke s2))]) /\
  otel (hw (snd (run sdk srv h))) =
    publish ps (set_propagator newPropagator (otel (hw h))).
Proof.
  intros Hctx Hc Hsel.
  rewrite (hemitted_grow (run sdk srv) h _
             (f_equal (fun r => hlog (snd r)) (run_served h _ _ _ _ _ _ Hctx Hc Hsel))).
  rewrite (run_served h _ _ _ _ _ _ Hctx Hc Hsel).
  cbn [fst snd hw hlog shutdownFuncs env otel].
  repeat split.
  - cbn [coord]. read_log. cbn [invocations]. read_log. reflexivity.
  - cbn [host_steps]. read_log. reflexivity.
  - exists (HNotifyContext ctx
              :: map HCoord (EvSetTextMapPropagator newPropagator :: stage_events ps)
              ++ [HListenAndServe ctx; HLoggerInfo text.listening]
              ++ wake_events woke).
    repeat split.
    + cbn [app]. repeat rewrite <- app_assoc. reflexivity.
    + cbn [coord]. read_log. cbn [invocations]. read_log. reflexivity.
    + cbn [host_steps]. read_log. reflexivity.
Qed.

(** The error [run] returns after serving joins what ended the server (the
    value from [srvErr], or the result of [srv.Shutdown]) with the
    teardown results: it is nil exactly when all of them are nil, it lists
    the server's error first and the teardown errors in call order, and
    it contains each of them. *)
Theorem run_error_after_serving h ctx s0 ps s woke s2 :
  signal_NotifyContext srv (env (hw h)) = (ctx, s0) ->
  constructed sdk ctx s0 ps s ->
  srvErr_or_Done srv (snd (go_ListenAndServe srv ctx s)) = (woke, s2) ->
  let first := first_error srv woke s2 in
  let outs := outcomes Background (teardowns ps) (state_at_return srv woke s2) in
  exists v,
    fst (run sdk srv h) = Returned v /\
    (v = None <-> first = None /\ forall o, In o outs -> o = None) /\
    leavesT v = leavesT first ++ flat_map leavesT outs /\
    (forall x, first = Some x \/ In (Some x) outs -> errors.IsT v x = true).
Proof.
  intros Hctx Hc Hsel first outs.
  rewrite (run_served h _ _ _ _ _ _ Hctx Hc Hsel). cbn [fst].
  fold first outs.
  exists (errors.Join [first; joined None outs]).
  split; [reflexivity |]. split; [| split].
  - rewrite errors_facts.Join_pair_nil, joined_nil. tauto.
  - rewrite leavesT_Join_pair, leavesT_joined. reflexivity.
  - intros x [Hx | Hx]; apply errors_facts.IsT_Join_pair; right.
    + left. rewrite Hx. apply errors_facts.Is_refl.
    + right. apply IsT_joined. right; left.
      exists x. split; [assumption | apply errors_facts.Is_refl].
Qed.

(** On every path [run] returns rather than panics, every teardown that
    was registered has been called exactly once by then, the registry is
    empty, and [stop()] is the last thing [run] does.  In the state: either
    a constructor failed and the SDK is where the [Shutdown]s of the
    providers built before it, called in order with the signal context
    and followed by [stop()], leave it; or all succeeded and the SDK is
    where the three [Shutdown]s, called in order with
    [context.Background()] from the state in which the server part ended
    and followed by [stop()], leave it; and [run] returns the join of the
    cause with the results of exactly those calls. *)
Theorem run_tears_down_what_it_registers h :
  let log := coord (hemitted (run sdk srv) h) in
  let ctx := fst (signal_NotifyContext srv (env (hw h))) in
  let s0 := snd (signal_NotifyContext srv (env (hw h))) in
  (exists v, fst (run sdk srv h) = Returned v) /\
  appended log = map fst (invocations log) /\
  shutdownFuncs (hw (snd (run sdk srv h))) = [] /\
  (exists pre, hemitted (run sdk srv) h = pre ++ [HStop]) /\
  ((exists ps sig e s,
      constructed_then_failed sdk ctx s0 ps sig e s /\
      appended log = map (fun sp => prov_addr (snd sp)) ps /\
      invocations log = map (fun sp => (prov_addr (snd sp), ctx)) ps /\
      env (hw (snd (run sdk srv h))) =
        snd (signal_stop srv (env_after ctx (teardowns ps) s)) /\
      fst (run sdk srv h) =
        Returned
          (errors.Join [Some e; joined None (outcomes ctx (teardowns ps) s)])) \/
   (exists ps s woke s2,
      constructed sdk ctx s0 ps s /\
      srvErr_or_Done srv (snd (go_ListenAndServe srv ctx s)) = (woke, s2) /\
      appended log = map (fun sp => prov_addr (snd sp)) ps /\
      invocations log = map (fun sp => (prov_addr (snd sp), Background)) ps /\
      env (hw (snd (run sdk srv h))) =
        snd (signal_stop srv
               (env_after Background (teardowns ps)
                  (state_at_return srv woke s2))) /\
      fst (run sdk srv h) =
        Returned
          (errors.Join
             [first_error srv woke s2;
              joined None
                (outcomes Background (teardowns ps)
                   (state_at_return srv woke s2))]))).
Proof.
  intros log ctx0 s00. subst log ctx0 s00.
  destruct (signal_NotifyContext srv (env (hw h))) as [ctx s0] eqn:Hctx.
  cbn [fst snd].
  destruct (construction_cases sdk ctx s0)
    as [(ps & sig & e & s & Hc) | (ps & s & Hc)].
  - rewrite (hemitted_grow (run sdk srv) h _
               (f_equal (fun r => hlog (snd r))
                  (run_setup_failed h _ _ _ _ _ _ Hctx Hc))).
    rewrite (run_setup_failed h _ _ _ _ _ _ Hctx Hc).
    cbn [fst snd hw hlog shutdownFuncs env].
    split; [eexists; reflexivity |].
    split; [read_log; rewrite map_map; reflexivity |].
    split; [reflexivity |].
    split; [rewrite app_comm_cons; eexists; reflexivity |].
    left. exists ps, sig, e, s.
    split; [exact Hc |].
    split; [read_log; reflexivity |].
    split; [read_log; reflexivity |].
    split; reflexivity.
  - destruct (srvErr_or_Done srv (snd (go_ListenAndServe srv ctx s)))
      as [woke s2] eqn:Hsel.
    rewrite (hemitted_grow (run sdk srv) h _
               (f_equal (fun r => hlog (snd r))
                  (run_served h _ _ _ _ _ _ Hctx Hc Hsel))).
    rewrite (run_served h _ _ _ _ _ _ Hctx Hc Hsel).
    cbn [fst snd hw hlog shutdownFuncs env].
    split; [eexists; reflexivity |].
    split; [read_log; rewrite map_map; reflexivity |].
    split; [reflexivity |].
    split; [rewrite app_comm_cons; repeat rewrite app_assoc;
            eexists; reflexivity |].
    right. exists ps, s, woke, s2.
    split; [exact Hc |]. split; [exact Hsel |].
    split; [read_log; reflexivity |].
    split; [read_log; reflexivity |].
    split; reflexivity.
Qed.

(** *** [main] of [cmd/dice] *)

Lemma main_dice_eq h :
  main_dice sdk srv h =
  let r := run sdk srv (mkHost (hw h) (hlog h ++ [HLoggerInit])) in
  match fst r with
  | Returned None => (ExitOK, snd r)
  | Returned (Some e) =>
      (ExitFatal, mkHost (hw (snd r)) (hlog (snd r) ++ [HFatalln e]))
  | Panicked vs => (ExitPanic vs, snd r)
  end.
Proof.
  unfold main_dice. rewrite (hbind_eq _ (hemit_eq _ _)).
  unfold hbind at 1. cbv zeta.
  destruct (fst (run sdk srv _)) as [[e |] | vs]; try reflexivity.
Qed.

(** When a constructor fails, the process ends through [log.Fatalln]
    with an error that contains the constructor's error; the HTTP server
    was never started. *)
Theorem main_dice_fatal_when_setup_fails h ctx s0 ps sig e s :
  signal_NotifyContext srv (env (hw h)) = (ctx, s0) ->
  constructed_then_failed sdk ctx s0 ps sig e s ->
  fst (main_dice sdk srv h) = ExitFatal /\
  exists err,
    errors.Join [Some e; joined None (outcomes ctx (teardowns ps) s)] = Some err /\
    errors.Is err e = true /\
    host_steps (hemitted (main_dice sdk srv) h) =
      [HLoggerInit; HNotifyContext ctx; HStop; HFatalln err].
Proof.
  intros Hctx Hc.
  pose proof (run_setup_failed (mkHost (hw h) (hlog h ++ [HLoggerInit]))
                _ _ _ _ _ _ Hctx Hc) as Hrun.
  assert (Hmain := main_dice_eq h). cbv zeta in Hmain.
  rewrite Hrun in Hmain. cbn [fst snd hw hlog] in Hmain.
  unfold errors.Join in Hmain at 1. cbn [errors.nonnil] in Hmain.
  split; [now rewrite Hmain |].
  eexists. split; [reflexivity |]. split.
  - apply errors_facts.Is_joinError. right. exists e.
    split; [now left | apply errors_facts.Is_refl].
  - erewrite hemitted_grow.
    2: { rewrite Hmain. cbn [snd hlog].
         repeat rewrite <- app_assoc. reflexivity. }
    read_log. reflexivity.
Qed.

(** After serving, the process ends with [ExitOK] exactly when what ended
    the server and every teardown result is nil, and through
    [log.Fatalln] otherwise. *)
Theorem main_dice_exit_after_serving h ctx s0 ps s woke s2 :
  signal_NotifyContext srv (env (hw h)) = (ctx, s0) ->
  constructed sdk ctx s0 ps s ->
  srvErr_or_Done srv (snd (go_ListenAndServe srv ctx s)) = (woke, s2) ->
  let first := first_error srv woke s2 in
  let outs := outcomes Background (teardowns ps) (state_at_return srv woke s2) in
  (fst (main_dice sdk srv h) = ExitOK <->
   first = None /\ forall o, In o outs -> o = None) /\
  (fst (main_dice sdk srv h) = ExitOK \/ fst (main_dice sdk srv h) = ExitFatal).
Proof.
  intros Hctx Hc Hsel first outs.
  pose proof (run_served (mkHost (hw h) (hlog h ++ [HLoggerInit]))
                _ _ _ _ _ _ Hctx Hc Hsel) as Hrun.
  fold first outs in Hrun.
  assert (Hmain := main_dice_eq h). cbv zeta in Hmain.
  rewrite Hrun in Hmain. cbn [fst snd] in Hmain. rewrite Hmain.
  pose proof (errors_facts.Join_pair_nil first (joined None outs)) as Hnil.
  rewrite joined_nil in Hnil.
  destruct (errors.Join [first; joined None outs]) as [err |]; cbn [fst].
  - split; [| now right].
    split; [discriminate |].
    intros Hall. destruct Hnil as [_ Hnil].
    discriminate Hnil. tauto.
  - split; [| now left].
    split; [| reflexivity]. intros _. destruct Hnil as [Hnil _].
    destruct (Hnil eq_refl) as (Hf & _ & Ho). auto.
Qed.

(** *** [main] of [cmd/metrics], exit path by exit path *)

Lemma SetProvider_eq sg (p : provider Env) w :
  SetProvider sg p w =
  (tt, mkWorld (env w) (set_provider sg p (otel w)) (shutdownFuncs w)
               (trace w ++ [EvSetProvider sg (prov_addr p)])).
Proof. reflexivity. Qed.

Lemma call_Shutdown_eq (p : provider Env) c w :
  call (Shutdown p) c w =
  (fst (prov_Shutdown p c (env w)),
   mkWorld (snd (prov_Shutdown p c (env w))) (otel w) (shutdownFuncs w)
           (trace w ++ [EvInvoke (prov_addr p) c])).
Proof. reflexivity. Qed.

Lemma main_metrics_exporter_failed h e s :
  otlpmetricgrpc_New mapi Background (env (hw h)) = (inr e, s) ->
  main_metrics mapi h =
  (Panicked [PanicError e],
   mkHost (mkWorld s (otel (hw h)) (shutdownFuncs (hw h)) (trace (hw h)))
          (hlog h ++ [HNewExporter Background])).
Proof.
  intros Hexp. unfold main_metrics. cbv zeta.
  rewrite (hbind_eq _ (hemit_eq _ _)).
  match goal with
  | |- hbind (hext ?c) ?k ?h0 = _ => rewrite (hbind_eq k (hext_eq c h0 Hexp))
  end.
  reflexivity.
Qed.

Lemma main_metrics_ran h exp s1 mp s2 meter s3 cpuUsage gerr s4 rerr s5 serr s6 :
  otlpmetricgrpc_New mapi Background (env (hw h)) = (inl exp, s1) ->
  metric_NewMeterProvider mapi exp s1 = (mp, s2) ->
  otel_Meter mapi (Some mp) text.meter_name s2 = (meter, s3) ->
  Int64ObservableGauge mapi meter text.cpuUsage s3 = ((cpuUsage, gerr), s4) ->
  RegisterCallback mapi meter (cpu_callback cpuUsage) cpuUsage s4 = (rerr, s5) ->
  prov_Shutdown mp Background s5 = (serr, s6) ->
  main_metrics mapi h =
  (match errors.nonnil [rerr; serr] with
   | [] => Returned tt
   | e :: es => Panicked (map PanicError (e :: es))
   end,
   mkHost (mkWorld s6 (set_provider Metrics mp (otel (hw h)))
                   (shutdownFuncs (hw h))
                   (trace (hw h)
                      ++ [EvSetProvider Metrics (prov_addr mp);
                          EvInvoke (prov_addr mp) Background]))
          (hlog h
             ++ [HNewExporter Background;
                 HNewMeterProvider (prov_addr mp);
                 HCoord (EvSetProvider Metrics (prov_addr mp));
                 HMeter (Some (prov_addr mp));
                 HGauge;
                 HRegisterCallback (fst (cpu_callback cpuUsage))]
             ++ match rerr with
                | Some _ => [HPrintln text.register_failed]
                | None => []
                end
             ++ [HCoord (EvInvoke (prov_addr mp) Background)])).
Proof.
  intros Hexp Hmp Hmeter Hgauge Hreg Hdown.
  unfold main_metrics. cbv zeta.
  rewrite (hbind_eq _ (hemit_eq _ _)).
  match goal with
  | |- hbind (hext ?c) ?k ?h0 = _ => rewrite (hbind_eq k (hext_eq c h0 Hexp))
  end.
  match goal with
  | |- hbind (hext ?c) ?k ?h0 = _ => rewrite (hbind_eq k (hext_eq c h0 Hmp))
  end.
  rewrite (hbind_eq _ (hemit_eq _ _)).
  cbn [hw hlog env otel shutdownFuncs trace].
  assert (Hbody :
    metrics_body mapi mp
      (mkHost (mkWorld s2 (otel (hw h)) (shutdownFuncs (hw h)) (trace (hw h)))
              ((hlog h ++ [HNewExporter Background])
                 ++ [HNewMeterProvider (prov_addr mp)])) =
    (match rerr with
     | Some e => Panicked [PanicError e]
     | None => Returned tt
     end,
     mkHost (mkWorld s5 (set_provider Metrics mp (otel (hw h)))
                     (shutdownFuncs (hw h))
                     (trace (hw h) ++ [EvSetProvider Metrics (prov_addr mp)]))
            (hlog h
               ++ [HNewExporter Background;
                   HNewMeterProvider (prov_addr mp);
                   HCoord (EvSetProvider Metrics (prov_addr mp));
                   HMeter (Some (prov_addr mp));
                   HGauge;
                   HRegisterCallback (fst (cpu_callback cpuUsage))]
               ++ match rerr with
                  | Some _ => [HPrintln text.register_failed]
                  | None => []
                  end))).
  { unfold metrics_body.
    match goal with
    | |- hbind (liftC ?m) ?k ?h0 = _ =>
        rewrite (hbind_eq k (liftC_eq m h0 _ (SetProvider_eq _ _ (hw h0)) eq_refl))
    end.
    cbn [hw hlog env otel shutdownFuncs trace].
    match goal with
    | |- hbind GetMeterProvider ?k ?h0 = _ =>
        rewrite (@hbind_eq _ _ GetMeterProvider k h0 (Some mp) h0 eq_refl)
    end.
    rewrite (hbind_eq _ (hemit_eq _ _)).
    cbn [hw hlog env otel shutdownFuncs trace option_map].
    match goal with
    | |- hbind (hext ?c) ?k ?h0 = _ => rewrite (hbind_eq k (hext_eq c h0 Hmeter))
    end.
    rewrite (hbind_eq _ (hemit_eq _ _)).
    match goal with
    | |- hbind (hext ?c) ?k ?h0 = _ => rewrite (hbind_eq k (hext_eq c h0 Hgauge))
    end.
    cbn [fst snd].
    rewrite (hbind_eq _ (hemit_eq _ _)).
    match goal with
    | |- hbind (hext ?c) ?k ?h0 = _ => rewrite (hbind_eq k (hext_eq c h0 Hreg))
    end.
    cbn [hw hlog env otel shutdownFuncs trace].
    destruct rerr as [e |].
    - rewrite (hbind_eq _ (hemit_eq _ _)).
      cbn [hw hlog hret map]. repeat rewrite <- app_assoc. reflexivity.
    - cbn [hw hlog hret map]. repeat rewrite <- app_assoc. reflexivity. }
  rewrite (hbind_eq _ Hbody).
  unfold metrics_deferred.
  match goal with
  | |- hbind (liftC ?m) ?k ?h0 = _ =>
      rewrite (hbind_eq k (liftC_eq m h0 _ (call_Shutdown_eq _ _ (hw h0)) eq_refl))
  end.
  cbn [hw hlog env otel shutdownFuncs trace].
  rewrite Hdown. cbn [fst snd].
  destruct rerr as [e |], serr as [d |];
    cbn [errors.nonnil map hret app];
    repeat rewrite <- app_assoc; reflexivity.
Qed.

(** *** [main] of [cmd/metrics] *)

(** When the exporter cannot be created, [main] panics with that error and
    has done nothing else: no provider was built, published or shut down,
    and the SDK is in the state the exporter constructor left. *)
Theorem main_metrics_panics_without_exporter h e s :
  otlpmetricgrpc_New mapi Background (env (hw h)) = (inr e, s) ->
  fst (main_metrics mapi h) = Panicked [PanicError e] /\
  hemitted (main_metrics mapi) h = [HNewExporter Background] /\
  otel (hw (snd (main_metrics mapi h))) = otel (hw h) /\
  env (hw (snd (main_metrics mapi h))) = s.
Proof.
  intros Hexp.
  rewrite (hemitted_grow (main_metrics mapi) h _
             (f_equal (fun r => hlog (snd r)) (main_metrics_exporter_failed h _ _ Hexp))).
  rewrite (main_metrics_exporter_failed h _ _ Hexp). auto.
Qed.

(** Once the meter provider exists, [main] shuts it down exactly once,
    with [context.Background()] and as its last step, whether or not the
    callback could be registered; before that it has published the
    provider, which stays the global meter provider, and has taken its
    meter from that provider. *)
Theorem main_metrics_shuts_provider_down_once
    h exp s1 mp s2 meter s3 cpuUsage gerr s4 rerr s5 serr s6 :
  otlpmetricgrpc_New mapi Background (env (hw h)) = (inl exp, s1) ->
  metric_NewMeterProvider mapi exp s1 = (mp, s2) ->
  otel_Meter mapi (Some mp) text.meter_name s2 = (meter, s3) ->
  Int64ObservableGauge mapi meter text.cpuUsage s3 = ((cpuUsage, gerr), s4) ->
  RegisterCallback mapi meter (cpu_callback cpuUsage) cpuUsage s4 = (rerr, s5) ->
  prov_Shutdown mp Background s5 = (serr, s6) ->
  coord (hemitted (main_metrics mapi) h) =
    [EvSetProvider Metrics (prov_addr mp); EvInvoke (prov_addr mp) Background] /\
  (exists pre, hemitted (main_metrics mapi) h =
                 pre ++ [HCoord (EvInvoke (prov_addr mp) Background)]) /\
  In (HMeter (Some (prov_addr mp))) (hemitted (main_metrics mapi) h) /\
  MeterProvider (otel (hw (snd (main_metrics mapi h)))) = Some mp /\
  env (hw (snd (main_metrics mapi h))) = s6.
Proof.
  intros Hexp Hmp Hmeter Hgauge Hreg Hdown.
  pose proof (main_metrics_ran h _ _ _ _ _ _ _ _ _ _ _ _ _
                Hexp Hmp Hmeter Hgauge Hreg Hdown) as Hrun.
  rewrite (hemitted_grow (main_metrics mapi) h _
             (f_equal (fun r => hlog (snd r)) Hrun)).
  rewrite Hrun. cbn [fst snd hw hlog otel env].
  repeat split.
  - destruct rerr; reflexivity.
  - rewrite app_assoc. eexists. reflexivity.
  - cbn. auto.
Qed.

(** [main] returns normally exactly when the callback was registered and
    the provider shut down cleanly; otherwise it ends panicking with the
    registration error, the shutdown error, or the first followed by the
    second. *)
Theorem main_metrics_outcome
    h exp s1 mp s2 meter s3 cpuUsage gerr s4 rerr s5 serr s6 :
  otlpmetricgrpc_New mapi Background (env (hw h)) = (inl exp, s1) ->
  metric_NewMeterProvider mapi exp s1 = (mp, s2) ->
  otel_Meter mapi (Some mp) text.meter_name s2 = (meter, s3) ->
  Int64ObservableGauge mapi meter text.cpuUsage s3 = ((cpuUsage, gerr), s4) ->
  RegisterCallback mapi meter (cpu_callback cpuUsage) cpuUsage s4 = (rerr, s5) ->
  prov_Shutdown mp Background s5 = (serr, s6) ->
  (fst (main_metrics mapi h) = Returned tt <-> rerr = None /\ serr = None) /\
  (rerr <> None \/ serr <> None ->
   fst (main_metrics mapi h) =
     Panicked (map PanicError (errors.nonnil [rerr; serr]))) /\
  (In (HPrintln text.register_failed) (hemitted (main_metrics mapi) h) <->
   rerr <> None).
Proof.
  intros Hexp Hmp Hmeter Hgauge Hreg Hdown.
  pose proof (main_metrics_ran h _ _ _ _ _ _ _ _ _ _ _ _ _
                Hexp Hmp Hmeter Hgauge Hreg Hdown) as Hrun.
  rewrite (hemitted_grow (main_metrics mapi) h _
             (f_equal (fun r => hlog (snd r)) Hrun)).
  rewrite Hrun. cbn [fst snd hlog].
  destruct rerr as [e |], serr as [d |]; cbn; repeat split;
    try discriminate; try tauto; try congruence;
    try (intros [? ?]; discriminate);
    try (intros Hin; repeat (destruct Hin as [Hin | Hin]; try discriminate);
         contradiction).
Qed.

(** The error result of [Int64ObservableGauge] is never looked at:
    replacing it by anything else changes neither what [main] does nor how
    it ends. *)
Theorem main_metrics_ignores_gauge_error (f : errors.t -> errors.t) h :
  main_metrics (with_gauge_error f mapi) h = main_metrics mapi h /\
  forall mp h', metrics_body (with_gauge_error f mapi) mp h' = metrics_body mapi mp h'.
Proof. split; [| intros mp h']; reflexivity. Qed.

End ProgramProperties.

(** ** The programs on the demo environment *)

(** An interrupted run with a clean server shutdown: the tracer provider's
    failing [Shutdown] alone makes the process end through
    [log.Fatalln]. *)
Example interrupted_run :
  let r := main_dice (Demo.sdk None) (DemoHost.server (inr tt) None)
             DemoHost.start in
  fst r = ExitFatal /\
  env (hw (snd r)) = [3; 2; 1] /\
  host_steps (hlog (snd r)) =
    [HLoggerInit; HNotifyContext DemoHost.sigctx;
     HListenAndServe DemoHost.sigctx; HLoggerInfo text.listening;
     HSelectDone; HStop; HSrvShutdown Background; HStop;
     HFatalln
       (errors.joinError
          [errors.joinError
             [errors.joinError [errors.joinError [Demo.flush_failed]]]])].
Proof. repeat split. Qed.

Lemma setupOTelSDK_error_lists_cause_first_witness :
  constructed_then_failed (Demo.sdk (Some Logs)) Demo.interrupted []
    [(Traces, Demo.broken 1); (Metrics, Demo.polite 2)] Logs Demo.no_exporter [] /\
  leavesT (snd (fst (setupOTelSDK (Demo.sdk (Some Logs)) Demo.interrupted
                       Demo.fresh))) =
    leaves Demo.no_exporter ++ leaves Demo.flush_failed ++ leaves Demo.canceled.
Proof.
  assert (Hc : constructed_then_failed (Demo.sdk (Some Logs)) Demo.interrupted
                 (env Demo.fresh)
                 [(Traces, Demo.broken 1); (Metrics, Demo.polite 2)] Logs
                 Demo.no_exporter []).
  { apply failed_logs with (s1 := []) (s2 := []); reflexivity. }
  split; [exact Hc |].
  exact (@setupOTelSDK_error_lists_cause_first _ _ _ _ Demo.fresh _ _ _ _ Hc).
Defined.

Lemma setupOTelSDK_success_state_witness :
  constructed (Demo.sdk None) Demo.background []
    [(Traces, Demo.broken 1); (Metrics, Demo.polite 2); (Logs, Demo.polite 3)] [] /\
  map (@fn_tag Demo.Env)
    (shutdownFuncs (snd (setupOTelSDK (Demo.sdk None) Demo.background Demo.fresh))) =
    [1; 2; 3] /\
  invocations (emitted (setupOTelSDK (Demo.sdk None) Demo.background) Demo.fresh) = [].
Proof.
  assert (Hc : constructed (Demo.sdk None) Demo.background (env Demo.fresh)
                 [(Traces, Demo.broken 1); (Metrics, Demo.polite 2);
                  (Logs, Demo.polite 3)] []).
  { exists (Demo.broken 1), [], (Demo.polite 2), [], (Demo.polite 3).
    repeat split. }
  split; [exact Hc |].
  pose proof (@setupOTelSDK_success_state _ _ _ _ Demo.fresh _ _ Hc) as T.
  cbv zeta in T. destruct T as (_ & Hinv & _ & Hreg & _).
  split; [rewrite Hreg; reflexivity | exact Hinv].
Defined.

Lemma setupOTelSDK_failure_keeps_published_witness :
  constructed_then_failed (Demo.sdk (Some Metrics)) Demo.background []
    [(Traces, Demo.broken 1)] Metrics Demo.no_exporter [] /\
  In (Traces, Demo.broken 1) [(Traces, Demo.broken 1)] /\
  TracerProvider
    (otel (snd (setupOTelSDK (Demo.sdk (Some Metrics)) Demo.background Demo.fresh))) =
    Some (Demo.broken 1) /\
  In (1, Demo.background)
    (invocations
       (emitted (setupOTelSDK (Demo.sdk (Some Metrics)) Demo.background) Demo.fresh)).
Proof.
  assert (Hc : constructed_then_failed (Demo.sdk (Some Metrics)) Demo.background
                 (env Demo.fresh) [(Traces, Demo.broken 1)] Metrics
                 Demo.no_exporter []).
  { apply failed_metrics with (s1 := []); reflexivity. }
  assert (Hin : In (Traces, Demo.broken 1) [(Traces, Demo.broken 1)])
    by (left; reflexivity).
  split; [exact Hc |]. split; [exact Hin |].
  exact (@setupOTelSDK_failure_keeps_published _ _ _ _ Demo.fresh _ _ _ _ _ _
           Hc Hin).
Defined.

Lemma run_returns_early_when_setup_fails_witness :
  signal_NotifyContext (DemoHost.server (inr tt) None) (env (hw DemoHost.start)) =
    (DemoHost.sigctx, []) /\
  constructed_then_failed (Demo.sdk (Some Metrics)) DemoHost.sigctx []
    [(Traces, Demo.broken 1)] Metrics Demo.no_exporter [] /\
  host_steps
    (hemitted (run (Demo.sdk (Some Metrics)) (DemoHost.server (inr tt) None))
       DemoHost.start) =
    [HNotifyContext DemoHost.sigctx; HStop] /\
  invocations
    (coord
       (hemitted (run (Demo.sdk (Some Metrics)) (DemoHost.server (inr tt) None))
          DemoHost.start)) =
    [(1, DemoHost.sigctx)].
Proof.
  assert (Hctx : signal_NotifyContext (DemoHost.server (inr tt) None)
                   (env (hw DemoHost.start)) = (DemoHost.sigctx, []))
    by reflexivity.
  assert (Hc : constructed_then_failed (Demo.sdk (Some Metrics)) DemoHost.sigctx
                 [] [(Traces, Demo.broken 1)] Metrics Demo.no_exporter []).
  { apply failed_metrics with (s1 := []); reflexivity. }
  split; [exact Hctx |]. split; [exact Hc |].
  pose proof (@run_returns_early_when_setup_fails _ _ _ _ DemoHost.start
                _ _ _ _ _ _ Hctx Hc) as T.
  destruct T as (_ & Hsteps & Hinv & _).
  split; [exact Hsteps | exact Hinv].
Defined.

Lemma run_shuts_down_after_serving_witness :
  signal_NotifyContext (DemoHost.server (inr tt) None) (env (hw DemoHost.start)) =
    (DemoHost.sigctx, []) /\
  constructed (Demo.sdk None) DemoHost.sigctx []
    [(Traces, Demo.broken 1); (Metrics, Demo.polite 2); (Logs, Demo.polite 3)] [] /\
  srvErr_or_Done (DemoHost.server (inr tt) None)
    (snd (go_ListenAndServe (DemoHost.server (inr tt) None) DemoHost.sigctx [])) =
    (inr tt, []) /\
  invocations
    (coord
       (hemitted (run (Demo.sdk None) (DemoHost.server (inr tt) None))
          DemoHost.start)) =
    [(1, Background); (2, Background); (3, Background)].
Proof.
  assert (Hctx : signal_NotifyContext (DemoHost.server (inr tt) None)
                   (env (hw DemoHost.start)) = (DemoHost.sigctx, []))
    by reflexivity.
  assert (Hc : constructed (Demo.sdk None) DemoHost.sigctx []
                 [(Traces, Demo.broken 1); (Metrics, Demo.polite 2);
                  (Logs, Demo.polite 3)] []).
  { exists (Demo.broken 1), [], (Demo.polite 2), [], (Demo.polite 3).
    repeat split. }
  assert (Hsel : srvErr_or_Done (DemoHost.server (inr tt) None)
                   (snd (go_ListenAndServe (DemoHost.server (inr tt) None)
                           DemoHost.sigctx [])) = (inr tt, []))
    by reflexivity.
  split; [exact Hctx |]. split; [exact Hc |]. split; [exact Hsel |].
  exact (proj1 (@run_shuts_down_after_serving _ _ _ _ DemoHost.start
                  _ _ _ _ _ _ Hctx Hc Hsel)).
Defined.

Lemma run_error_after_serving_witness :
  signal_NotifyContext (DemoHost.server (inl (Some DemoHost.refused)) None)
    (env (hw DemoHost.start)) = (DemoHost.sigctx, []) /\
  constructed (Demo.sdk None) DemoHost.sigctx []
    [(Traces, Demo.broken 1); (Metrics, Demo.polite 2); (Logs, Demo.polite 3)] [] /\
  srvErr_or_Done (DemoHost.server (inl (Some DemoHost.refused)) None)
    (snd (go_ListenAndServe (DemoHost.server (inl (Some DemoHost.refused)) None)
            DemoHost.sigctx [])) =
    (inl (Some DemoHost.refused), []) /\
  exists v,
    fst (run (Demo.sdk None) (DemoHost.server (inl (Some DemoHost.refused)) None)
           DemoHost.start) = Returned v /\
    leavesT v = leaves DemoHost.refused ++ leaves Demo.flush_failed.
Proof.
  assert (Hctx : signal_NotifyContext
                   (DemoHost.server (inl (Some DemoHost.refused)) None)
                   (env (hw DemoHost.start)) = (DemoHost.sigctx, []))
    by reflexivity.
  assert (Hc : constructed (Demo.sdk None) DemoHost.sigctx []
                 [(Traces, Demo.broken 1); (Metrics, Demo.polite 2);
                  (Logs, Demo.polite 3)] []).
  { exists (Demo.broken 1), [], (Demo.polite 2), [], (Demo.polite 3).
    repeat split. }
  assert (Hsel : srvErr_or_Done
                   (DemoHost.server (inl (Some DemoHost.refused)) None)
                   (snd (go_ListenAndServe
                           (DemoHost.server (inl (Some DemoHost.refused)) None)
                           DemoHost.sigctx [])) =
                 (inl (Some DemoHost.refused), []))
    by reflexivity.
  split; [exact Hctx |]. split; [exact Hc |]. split; [exact Hsel |].
  pose proof (@run_error_after_serving _ _ _ _ DemoHost.start
                _ _ _ _ _ _ Hctx Hc Hsel) as T.
  cbv zeta in T. destruct T as (v & Hv & _ & Hleaves & _).
  exists v. split; [exact Hv | exact Hleaves].
Defined.

Lemma main_dice_fatal_when_setup_fails_witness :
  signal_NotifyContext (DemoHost.server (inr tt) None) (env (hw DemoHost.start)) =
    (DemoHost.sigctx, []) /\
  constructed_then_failed (Demo.sdk (Some Traces)) DemoHost.sigctx []
    [] Traces Demo.no_exporter [] /\
  fst (main_dice (Demo.sdk (Some Traces)) (DemoHost.server (inr tt) None)
         DemoHost.start) = ExitFatal.
Proof.
  assert (Hctx : signal_NotifyContext (DemoHost.server (inr tt) None)
                   (env (hw DemoHost.start)) = (DemoHost.sigctx, []))
    by reflexivity.
  assert (Hc : constructed_then_failed (Demo.sdk (Some Traces)) DemoHost.sigctx
                 [] [] Traces Demo.no_exporter []).
  { apply failed_traces; reflexivity. }
  split; [exact Hctx |]. split; [exact Hc |].
  exact (proj1 (@main_dice_fatal_when_setup_fails _ _ _ _ DemoHost.start
                  _ _ _ _ _ _ Hctx Hc)).
Defined.

Lemma main_dice_exit_after_serving_witness :
  signal_NotifyContext (DemoHost.server (inr tt) None) (env (hw DemoHost.start)) =
    (DemoHost.sigctx, []) /\
  constructed (Demo.sdk None) DemoHost.sigctx []
    [(Traces, Demo.broken 1); (Metrics, Demo.polite 2); (Logs, Demo.polite 3)] [] /\
  srvErr_or_Done (DemoHost.server (inr tt) None)
    (snd (go_ListenAndServe (DemoHost.server (inr tt) None) DemoHost.sigctx [])) =
    (inr tt, []) /\
  (fst (main_dice (Demo.sdk None) (DemoHost.server (inr tt) None) DemoHost.start) =
     ExitOK \/
   fst (main_dice (Demo.sdk None) (DemoHost.server (inr tt) None) DemoHost.start) =
     ExitFatal).
Proof.
  assert (Hctx : signal_NotifyContext (DemoHost.server (inr tt) None)
                   (env (hw DemoHost.start)) = (DemoHost.sigctx, []))
    by reflexivity.
  assert (Hc : constructed (Demo.sdk None) DemoHost.sigctx []
                 [(Traces, Demo.broken 1); (Metrics, Demo.polite 2);
                  (Logs, Demo.polite 3)] []).
  { exists (Demo.broken 1), [], (Demo.polite 2), [], (Demo.polite 3).
    repeat split. }
  assert (Hsel : srvErr_or_Done (DemoHost.server (inr tt) None)
                   (snd (go_ListenAndServe (DemoHost.server (inr tt) None)
                           DemoHost.sigctx [])) = (inr tt, []))
    by reflexivity.
  split; [exact Hctx |]. split; [exact Hc |]. split; [exact Hsel |].
  exact (proj2 (@main_dice_exit_after_serving _ _ _ _ DemoHost.start
                  _ _ _ _ _ _ Hctx Hc Hsel)).
Defined.

Lemma main_metrics_panics_without_exporter_witness :
  otlpmetricgrpc_New
    (DemoHost.metrics (inr Demo.no_exporter) (Demo.polite 9) None None)
    Background (env (hw DemoHost.start)) = (inr Demo.no_exporter, []) /\
  fst (main_metrics
         (DemoHost.metrics (inr Demo.no_exporter) (Demo.polite 9) None None)
         DemoHost.start) = Panicked [PanicError Demo.no_exporter].
Proof.
  assert (Hexp : otlpmetricgrpc_New
                   (DemoHost.metrics (inr Demo.no_exporter) (Demo.polite 9)
                      None None)
                   Background (env (hw DemoHost.start)) =
                 (inr Demo.no_exporter, [])) by reflexivity.
  split; [exact Hexp |].
  exact (proj1 (@main_metrics_panics_without_exporter _ _ _ DemoHost.start
                  _ _ Hexp)).
Defined.

Lemma main_metrics_shuts_provider_down_once_witness :
  let api := DemoHost.metrics (inl 1) (Demo.broken 9)
               (Some Demo.canceled) (Some DemoHost.refused) in
  otlpmetricgrpc_New api Background (env (hw DemoHost.start)) = (inl 1, []) /\
  metric_NewMeterProvider api 1 [] = (Demo.broken 9, []) /\
  otel_Meter api (Some (Demo.broken 9)) text.meter_name [] = (4, []) /\
  Int64ObservableGauge api 4 text.cpuUsage [] = ((5, Some Demo.canceled), []) /\
  RegisterCallback api 4 (cpu_callback 5) 5 [] = (Some DemoHost.refused, []) /\
  prov_Shutdown (Demo.broken 9) Background [] = (Some Demo.flush_failed, [9]) /\
  coord (hemitted (main_metrics api) DemoHost.start) =
    [EvSetProvider Metrics 9; EvInvoke 9 Background].
Proof.
  intros api.
  repeat (split; [reflexivity |]).
  exact (proj1 (@main_metrics_shuts_provider_down_once _ _ api DemoHost.start
                  1 [] (Demo.broken 9) [] 4 [] 5 (Some Demo.canceled) []
                  (Some DemoHost.refused) [] (Some Demo.flush_failed) [9]
                  eq_refl eq_refl eq_refl eq_refl eq_refl eq_refl)).
Defined.

Lemma main_metrics_outcome_witness :
  let api := DemoHost.metrics (inl 1) (Demo.broken 9)
               None (Some DemoHost.refused) in
  otlpmetricgrpc_New api Background (env (hw DemoHost.start)) = (inl 1, []) /\
  metric_NewMeterProvider api 1 [] = (Demo.broken 9, []) /\
  otel_Meter api (Some (Demo.broken 9)) text.meter_name [] = (4, []) /\
  Int64ObservableGauge api 4 text.cpuUsage [] = ((5, None), []) /\
  RegisterCallback api 4 (cpu_callback 5) 5 [] = (Some DemoHost.refused, []) /\
  prov_Shutdown (Demo.broken 9) Background [] = (Some Demo.flush_failed, [9]) /\
  (Some DemoHost.refused <> None \/ Some Demo.flush_failed <> None) /\
  fst (main_metrics api DemoHost.start) =
    Panicked [PanicError DemoHost.refused; PanicError Demo.flush_failed].
Proof.
  intros api.
  repeat (split; [reflexivity |]).
  assert (Hne : Some DemoHost.refused <> None \/ Some Demo.flush_failed <> None)
    by (left; discriminate).
  split; [exact Hne |].
  exact (proj1 (proj2 (@main_metrics_outcome _ _ api DemoHost.start
                  1 [] (Demo.broken 9) [] 4 [] 5 None []
                  (Some DemoHost.refused) [] (Some Demo.flush_failed) [9]
                  eq_refl eq_refl eq_refl eq_refl eq_refl eq_refl)) Hne).
Defined.
